(** * Saving, loading and training feed-forward networks

    A shallow embedding of the code cells of the two notebooks

    - [Part 6 - Saving and Loading Models.ipynb]  (checkpoints)
    - [Part 3 - Training Neural Networks (Exercises).ipynb]  (autograd,
      the training loop, the [nn.Sequential] models)

    The notebooks call PyTorch.  The framework is not part of the repository,
    so each framework call the cells make is given a small executable model
    here, and so is [fc_model.Network], whose file is not among the sources;
    the doc comment of every such definition says so.  Tensors hold real
    numbers, the usual idealisation of [float32].  The cells themselves are
    translated line by line; "cell n" is the cell with execution count n. *)

From Stdlib Require Import Reals Lra.
From stdpp Require Import gmap strings pretty list.
From Stdlib Require Import Ascii.

(** * Definitions *)

(** ** Tensors and Python values *)

(** Modelled from the spec: the framework's tensor class is not among the
    source files.  A tensor is its [torch.Size] and its entries in
    row-major order. *)
Record tensor := Tensor { shape : list nat; data : list R }.

(** The Python objects that reach [torch.save] and come back from
    [torch.load] in Part 6: integers, lists, tensors, a [state_dict] (the
    framework's dictionary from parameter names to tensors; the order of
    its keys plays no role) and plain dictionaries with string keys. *)
#[warnings="-register-all"]
Inductive pyobj :=
| PyInt (n : nat)
| PyList (l : list pyobj)
| PyTensor (t : tensor)
| PyStateDict (sd : gmap string tensor)
| PyDict (d : gmap string pyobj).

(** One line of the message of the [RuntimeError] that
    [Module.load_state_dict] raises (cell 10 of Part 6 shows seven
    [size mismatch for ...] lines). *)
Inductive load_error :=
| missing_keys (ks : list string)
| unexpected_keys (ks : list string)
| size_mismatch (key : string) (checkpoint_shape model_shape : list nat).

(** The exceptions the cells of Part 6 can raise. *)
Inductive exn :=
| FileNotFoundError (path : string)
| KeyError (key : string)
| TypeError
| IndexError
| AttributeError
| RuntimeError (error_msgs : list load_error).

(** ** The layers of [fc_model.Network] *)

(** Modelled from the spec: [nn.Linear] is a class of the framework, not
    among the source files.  It is printed as [Linear(in_features=..,
    out_features=.., bias=True)]; its parameters are [weight], of shape
    [[out_features; in_features]], and [bias], of shape [[out_features]]
    (the shapes in the error message of cell 10 of Part 6). *)
Record Linear := MkLinear {
  in_features : nat;
  out_features : nat;
  weight : tensor;
  bias : tensor }.

(** Modelled from the spec: [nn.Dropout] is a class of the framework, not
    among the source files.  It is printed as [Dropout(p=0.5)] and has no
    parameters (none appears among the keys printed by cell 6). *)
Record Dropout := MkDropout { p : R }.

(** Modelled from the spec: [fc_model.py], which defines the class
    [Network], is not among the source files.  An instance has the three
    sub-modules that [print(model)] shows in cells 6 and 13 of Part 6. *)
Record Network := MkNetwork {
  hidden_layers : list Linear;
  output : Linear;
  dropout : Dropout }.

(** ** [state_dict] and [load_state_dict] *)

(** Modelled from the spec: [named_parameters] and [state_dict] are
    methods of the framework's [nn.Module], not among the source files; the
    names are those printed by cells 6 and 8 of Part 6.  Here, the two
    parameters of a [Linear] registered under [prefix]. *)
Definition linear_parameters (prefix : string) (l : Linear)
    : list (string * tensor) :=
  [(prefix +:+ "weight", weight l); (prefix +:+ "bias", bias l)].

(** Modelled from the spec ([nn.Module], as above): the name of the [i]-th
    child of the [ModuleList], with its dot. *)
Definition hidden_prefix (i : nat) : string :=
  "hidden_layers." +:+ pretty i +:+ ".".

(** Modelled from the spec ([nn.Module], as above): the parameters of the
    children of the [ModuleList], from the [i]-th on. *)
Fixpoint hidden_parameters (i : nat) (ls : list Linear)
    : list (string * tensor) :=
  match ls with
  | [] => []
  | l :: rest =>
      linear_parameters (hidden_prefix i) l ++ hidden_parameters (S i) rest
  end.

(** Modelled from the spec ([nn.Module], as above):
    [model.named_parameters()], in the order of
    [model.state_dict().keys()] printed by cell 6. *)
Definition named_parameters (m : Network) : list (string * tensor) :=
  hidden_parameters 0 (hidden_layers m) ++ linear_parameters "output." (output m).

(** Modelled from the spec ([nn.Module], as above): [model.state_dict()]. *)
Definition state_dict (m : Network) : gmap string tensor :=
  list_to_map (named_parameters m).

(** What loading one parameter yields: the parameter afterwards, the
    [size mismatch] lines and the missing keys. *)
Definition loaded (A : Type) : Type := A * list load_error * list string.

(** Modelled from the spec: part of [load_state_dict] below.  One
    parameter: a tensor of another shape is reported and skipped, a tensor
    of the same shape is copied into the parameter, an absent key is
    recorded as missing. *)
Definition load_param (key : string) (param : tensor)
    (sd : gmap string tensor) : loaded tensor :=
  match sd !! key with
  | Some input_param =>
      if decide (shape input_param = shape param)
      then (Tensor (shape param) (data input_param), [], [])
      else (param, [size_mismatch key (shape input_param) (shape param)], [])
  | None => (param, [], [key])
  end.

(** Modelled from the spec: part of [load_state_dict] below, for the two
    parameters of one [Linear]. *)
Definition load_linear (prefix : string) (l : Linear)
    (sd : gmap string tensor) : loaded Linear :=
  let '(wt, e1, m1) := load_param (prefix +:+ "weight") (weight l) sd in
  let '(b, e2, m2) := load_param (prefix +:+ "bias") (bias l) sd in
  (MkLinear (in_features l) (out_features l) wt b, e1 ++ e2, m1 ++ m2).

(** Modelled from the spec: part of [load_state_dict] below, for the
    children of the [ModuleList], from the [i]-th on. *)
Fixpoint load_hidden (i : nat) (ls : list Linear)
    (sd : gmap string tensor) : loaded (list Linear) :=
  match ls with
  | [] => ([], [], [])
  | l :: rest =>
      let '(l', e1, m1) := load_linear (hidden_prefix i) l sd in
      let '(rest', e2, m2) := load_hidden (S i) rest sd in
      (l' :: rest', e1 ++ e2, m1 ++ m2)
  end.

(** Modelled from the spec: [Module.load_state_dict] is a method of the
    framework, which the specification treats as a black-box dependency and
    which is not among the source files.  The model is the call
    [model.load_state_dict(state_dict)] with the default [strict=True] as
    cell 10 of Part 6 records it: the traceback ends in
    [if len(error_msgs) > 0: raise RuntimeError(...)] and the message has one
    [size mismatch] line for each parameter whose shape differs, in the order
    of the parameters.  The module tree is walked with the running prefix;
    keys of [state_dict] that name no parameter of the model are
    unexpected.  The first component is the model after the call: the method
    works in place, so parameters whose shape matched have been overwritten
    even when it raises. *)
Definition load_state_dict (m : Network) (sd : gmap string tensor)
    : Network * (exn + unit) :=
  let '(hs, e1, m1) := load_hidden 0 (hidden_layers m) sd in
  let '(out, e2, m2) := load_linear "output." (output m) sd in
  let missing := m1 ++ m2 in
  let unexpected := elements (dom sd ∖ dom (state_dict m)) in
  let error_msgs :=
    (if missing is [] then [] else [missing_keys missing]) ++
    (if unexpected is [] then [] else [unexpected_keys unexpected]) ++
    e1 ++ e2 in
  (MkNetwork hs out (dropout m),
   if error_msgs is [] then inr tt else inl (RuntimeError error_msgs)).

(** ** Architectures *)

(** The sizes the framework compares and prints for a [Linear]. *)
Definition layer_shapes (l : Linear) : nat * nat * list nat * list nat :=
  (in_features l, out_features l, shape (weight l), shape (bias l)).

(** The sizes of [nn.Linear(i, o)]. *)
Definition arch (io : nat * nat) : nat * nat * list nat * list nat :=
  (io.1, io.2, [io.2; io.1], [io.2]).

(** [m] has the architecture of [fc_model.Network(i, o, hs)]: the layers
    and parameter shapes the constructor gives, whatever the entries of the
    tensors have become in training. *)
Definition is_Network (i o : nat) (hs : list nat) (m : Network) : Prop :=
  layer_shapes <$> hidden_layers m = arch <$> zip (i :: hs) hs ∧
  match last hs with
  | Some h => layer_shapes (output m) = arch (h, o)
  | None => False
  end.

(** ** The interpreter state and its monad *)

Section WithRng.

(** The framework's random number generator, which initialises the
    parameters of a new layer: a state and a function that draws the entries
    of a tensor of the given shape. *)
Context {rng : Type}.
Variable init : rng → list nat → list R * rng.

(** What a cell can see and change: the files on disk, the generator, and
    the keys looked up in dictionaries so far ([reads] is a ghost log: it is
    only ever appended to and never inspected by the code). *)
Record world := World {
  files : gmap string pyobj;
  gen : rng;
  reads : list string }.

Definition M (A : Type) : Type := world → (exn + A) * world.

#[local] Instance M_ret : MRet M := λ A a w, (inr a, w).
#[local] Instance M_bind : MBind M := λ A B k m w,
  match m w with
  | (inr a, w') => k a w'
  | (inl e, w') => (inl e, w')
  end.
Definition raise {A} (e : exn) : M A := λ w, (inl e, w).

(** ** The framework calls of Part 6 *)

(** Modelled from the spec: [torch.save] is the framework's serializer, not
    among the source files.  After [torch.save(obj, path)] the file holds
    [obj]; the encoding is the framework's and is not looked into. *)
Definition torch_save (obj : pyobj) (path : string) : M unit := λ w,
  (inr tt, World (<[path := obj]> (files w)) (gen w) (reads w)).

(** Modelled from the spec: [torch.load] is the framework's deserializer,
    not among the source files.  [torch.load(path)] is the object last
    saved at [path]. *)
Definition torch_load (path : string) : M pyobj := λ w,
  match files w !! path with
  | Some obj => (inr obj, w)
  | None => (inl (FileNotFoundError path), w)
  end.

(** [obj[key]] for a string key; the key is recorded in [reads].  A
    dictionary without the key raises [KeyError]; an integer or a list takes
    no string as index ([TypeError]), and a tensor refuses it as an index
    ([IndexError]). *)
Definition getitem (obj : pyobj) (key : string) : M pyobj := λ w,
  let w' := World (files w) (gen w) (reads w ++ [key]) in
  match obj with
  | PyDict d =>
      match d !! key with
      | Some v => (inr v, w')
      | None => (inl (KeyError key), w')
      end
  | PyStateDict sd =>
      match sd !! key with
      | Some t => (inr (PyTensor t), w')
      | None => (inl (KeyError key), w')
      end
  | PyInt _ | PyList _ => (inl TypeError, w')
  | PyTensor _ => (inl IndexError, w')
  end.

(** Modelled from the spec: the initialisation of a new parameter is the
    framework's.  A fresh tensor of the given shape, filled by the
    generator. *)
Definition fresh (s : list nat) : M tensor := λ w,
  let '(xs, g) := init (gen w) s in
  (inr (Tensor s xs), World (files w) g (reads w)).

(** Modelled from the spec: the constructor of the framework's [nn.Linear],
    [nn.Linear(in_features, out_features)]: the weight is created first,
    then the bias. *)
Definition nn_Linear (i o : nat) : M Linear :=
  wt ← fresh [o; i];
  b ← fresh [o];
  mret (MkLinear i o wt b).

(** ** [fc_model.Network] *)

(** Modelled from the spec: part of [mk_Network] below, one [nn.Linear]
    for each pair of sizes. *)
Fixpoint linears (sizes : list (nat * nat)) : M (list Linear) :=
  match sizes with
  | [] => mret []
  | (i, o) :: rest =>
      l ← nn_Linear i o;
      ls ← linears rest;
      mret (l :: ls)
  end.

(** Modelled from the spec: [fc_model.py], which defines [Network], is not
    among the source files, and the specification only says that the
    networks are feed-forward stacks of the framework's prebuilt layers.
    The constructor builds the module tree that [print(model)] shows in
    cells 6 and 13 of Part 6: one [Linear] from [input_size] to the first
    hidden size, one between each pair of consecutive hidden sizes, an
    [output] layer from the last hidden size to [output_size], and
    [Dropout(p=0.5)].  An empty list of hidden sizes has no first element:
    [IndexError]. *)
Definition mk_Network (input_size output_size : nat) (hidden : list nat)
    : M Network :=
  match last hidden with
  | None => raise IndexError
  | Some h_last =>
      hs ← linears (zip (input_size :: hidden) hidden);
      out ← nn_Linear h_last output_size;
      mret (MkNetwork hs out (MkDropout (1 / 2)))
  end.

(** ** The cells of Part 6 *)

(** Modelled from the spec ([fc_model.py], as above): the sizes as the
    constructor of [Network] uses them, integers and a list of integers;
    with anything else the construction of the layers fails, here with
    [TypeError] before the first layer. *)
Definition as_int (o : pyobj) : M nat :=
  match o with PyInt n => mret n | _ => raise TypeError end.

Fixpoint as_ints (os : list pyobj) : M (list nat) :=
  match os with
  | [] => mret []
  | o :: rest => n ← as_int o; ns ← as_ints rest; mret (n :: ns)
  end.

Definition as_int_list (o : pyobj) : M (list nat) :=
  match o with PyList l => as_ints l | _ => raise TypeError end.

(** The tensor that a value is, when it is one. *)
Definition as_tensor (o : pyobj) : option tensor :=
  match o with PyTensor t => Some t | _ => None end.

(** The argument of [load_state_dict] as a mapping from names to tensors.
    Cell 12 tests nothing itself and the framework takes any such mapping,
    its own container or a plain dictionary of tensors; what is no mapping
    of tensors makes the framework call fail on a missing attribute
    ([copy], [items] or [shape]). *)
Definition as_state_dict (o : pyobj) : M (gmap string tensor) :=
  match o with
  | PyStateDict sd => mret sd
  | PyDict d =>
      if decide (map_Forall (λ _ v, is_Some (as_tensor v)) d)
      then mret (omap as_tensor d)
      else raise AttributeError
  | PyInt _ | PyList _ | PyTensor _ => raise AttributeError
  end.

(** [model.load_state_dict(sd)] as a statement: the model after the call,
    or the exception. *)
Definition do_load_state_dict (model : Network) (sd : gmap string tensor)
    : M Network :=
  match load_state_dict model sd with
  | (model', inr _) => mret model'
  | (_, inl e) => raise e
  end.

(** Cell 7: [torch.save(model.state_dict(), 'checkpoint.pth')]. *)
Definition save_state_dict (model : Network) : M unit :=
  torch_save (PyStateDict (state_dict model)) "checkpoint.pth".

(** Cell 11, the dictionary:
[[
checkpoint = {'input_size': 784,
              'output_size': 10,
              'hidden_layers': [each.out_features for each in model.hidden_layers],
              'state_dict': model.state_dict()}
]] *)
Definition checkpoint (model : Network) : gmap string pyobj :=
  {[ "input_size" := PyInt 784;
     "output_size" := PyInt 10;
     "hidden_layers" :=
       PyList ((λ each, PyInt (out_features each)) <$> hidden_layers model);
     "state_dict" := PyStateDict (state_dict model) ]}.

(** Cell 11, the call: [torch.save(checkpoint, 'checkpoint.pth')]. *)
Definition save_checkpoint (model : Network) : M unit :=
  torch_save (PyDict (checkpoint model)) "checkpoint.pth".

(** Cell 12:
[[
def load_checkpoint(filepath):
    checkpoint = torch.load(filepath)
    model = fc_model.Network(checkpoint['input_size'],
                             checkpoint['output_size'],
                             checkpoint['hidden_layers'])
    model.load_state_dict(checkpoint['state_dict'])

    return model
]] *)
Definition load_checkpoint (filepath : string) : M Network :=
  checkpoint ← torch_load filepath;
  input_size ← getitem checkpoint "input_size";
  output_size ← getitem checkpoint "output_size";
  hidden ← getitem checkpoint "hidden_layers";
  i ← as_int input_size;
  o ← as_int output_size;
  hs ← as_int_list hidden;
  model ← mk_Network i o hs;
  sd ← getitem checkpoint "state_dict";
  sd ← as_state_dict sd;
  do_load_state_dict model sd.

(** Cells 11 to 13 in a row: save [model], then
    [load_checkpoint('checkpoint.pth')]. *)
Definition save_then_load (model : Network) : M Network :=
  save_checkpoint model;; load_checkpoint "checkpoint.pth".

(** The input size, the hidden sizes and the output size of a network. *)
Definition sizes (m : Network) : option nat * list nat * nat :=
  (in_features <$> head (hidden_layers m),
   out_features <$> hidden_layers m,
   out_features (output m)).

(** Saving [model] in cell 11 and loading it back with [load_checkpoint]
    returns a network of the same sizes and parameters. *)
Definition round_trip (model : Network) : Prop :=
  ∀ w : world, ∃ m' w',
    save_then_load model w = (inr m', w') ∧
    sizes m' = sizes model ∧
    state_dict m' = state_dict model.

End WithRng.

(** The keys [load_checkpoint] looks up, in order. *)
Definition checkpoint_keys : list string :=
  ["input_size"; "output_size"; "hidden_layers"; "state_dict"].

(** A string without a dot, as every decimal numeral is. *)
Fixpoint no_dot (s : string) : Prop :=
  match s with
  | EmptyString => True
  | String a s' => a ≠ "."%char ∧ no_dot s'
  end.

(** ** Concrete inputs for Part 6 *)

(** A generator that always draws zeros. *)
Definition zeros_init (g : ()) (s : list nat) : list R * () :=
  (repeat 0%R (foldr Nat.mul 1 s), g).

Definition empty_world : @world () := World ∅ () [].

(** A network with the architecture of [Network(3, 10, [4])]. *)
Definition net_3_4_10 : Network :=
  MkNetwork
    [MkLinear 3 4 (Tensor [4; 3] (repeat 1%R 12)) (Tensor [4] (repeat 2%R 4))]
    (MkLinear 4 10 (Tensor [10; 4] (repeat 3%R 40)) (Tensor [10] (repeat 4%R 10)))
    (MkDropout (1 / 2)).

(** A network with the architecture of [Network(784, 10, [2])]. *)
Definition net_784_2_10 : Network :=
  MkNetwork
    [MkLinear 784 2 (Tensor [2; 784] (repeat 1%R 1568)) (Tensor [2] [5; 6]%R)]
    (MkLinear 2 10 (Tensor [10; 2] (repeat 3%R 20)) (Tensor [10] (repeat 4%R 10)))
    (MkDropout (1 / 2)).

(** A state dict for [net_3_4_10] with other entries, and one whose
    [output.bias] has three entries instead of ten. *)
Definition sd_same_shapes : gmap string tensor :=
  {[ "hidden_layers.0.weight" := Tensor [4; 3] (repeat 7%R 12);
     "hidden_layers.0.bias" := Tensor [4] (repeat 8%R 4);
     "output.weight" := Tensor [10; 4] (repeat 9%R 40);
     "output.bias" := Tensor [10] (repeat 6%R 10) ]}.

Definition sd_short_bias : gmap string tensor :=
  <["output.bias" := Tensor [3] (repeat 6%R 3)]> sd_same_shapes.

(** Two more state dicts for [net_3_4_10], every tensor of which has the
    shape of the parameter of its name: one lacks [output.bias], the other
    holds one more tensor, under a name that is no parameter's. *)
Definition sd_without_output_bias : gmap string tensor :=
  delete "output.bias" sd_same_shapes.

Definition sd_with_one_more : gmap string tensor :=
  <["epoch" := Tensor [] [5%R]]> sd_same_shapes.

(** The claim about the successful load as it is worded, for one model and
    one state dict: [load_state_dict] succeeds whenever every tensor of the
    state dict has the shape of the parameter of its name. *)
Definition loads_when_shapes_match (m : Network) (sd : gmap string tensor)
    : Prop :=
  (∀ k t param,
     sd !! k = Some t → state_dict m !! k = Some param →
     shape t = shape param) →
  (load_state_dict m sd).2 = inr ().

(** ** More of Part 6: cells 7 to 9, and [load_checkpoint] on any file *)

Section MoreOfPart6.

Context {rng : Type} (init : rng → list nat → list R * rng).

#[local] Existing Instances M_ret M_bind.

(** Cells 7 to 9 in a row (the keys that cell 8 prints are left out):
[[
torch.save(model.state_dict(), 'checkpoint.pth')
state_dict = torch.load('checkpoint.pth')
print(state_dict.keys())
model.load_state_dict(state_dict)
]] *)
Definition cells_7_to_9 (model : Network) : @M rng Network :=
  save_state_dict model;;
  state_dict ← torch_load "checkpoint.pth";
  sd ← as_state_dict state_dict;
  do_load_state_dict model sd.

(** Cell 7 followed by [load_checkpoint('checkpoint.pth')]: the file then
    holds the bare [state_dict], not the dictionary of cell 11. *)
Definition cell_7_then_load_checkpoint (model : Network) : M Network :=
  save_state_dict model;; load_checkpoint init "checkpoint.pth".

(** [c] leaves the files as they are and looks up the keys [ks] in this
    order, all of them when it returns and some first ones when it
    raises. *)
Definition reads_in_order {A} (c : @M rng A) (ks : list string) : Prop :=
  ∀ w, files (c w).2 = files w ∧
    match (c w).1 with
    | inr _ => reads (c w).2 = reads w ++ ks
    | inl _ => ∃ n, reads (c w).2 = reads w ++ take n ks
    end.

(** Two runs that end with the same result and the same generator. *)
Definition same_outcome {A} (r1 r2 : (exn + A) * @world rng) : Prop :=
  r1.1 = r2.1 ∧ gen r1.2 = gen r2.2.

End MoreOfPart6.

(** Two runs, possibly with different generators, that raise the same
    exception or return values related by [R]. *)
Definition related_runs {W1 W2 A1 A2 : Type} (R : A1 → A2 → Prop)
    (r1 : (exn + A1) * W1) (r2 : (exn + A2) * W2) : Prop :=
  match r1.1, r2.1 with
  | inl e1, inl e2 => e1 = e2
  | inr a1, inr a2 => R a1 a2
  | _, _ => False
  end.

(** Two networks with the same layer sizes and the same [Dropout], as two
    calls of [Network(i, o, hs)] give them, whatever their tensors hold. *)
Definition same_architecture (m1 m2 : Network) : Prop :=
  layer_shapes <$> hidden_layers m1 = layer_shapes <$> hidden_layers m2 ∧
  layer_shapes (output m1) = layer_shapes (output m2) ∧
  dropout m1 = dropout m2.

(** Two results of loading parameters with the same messages and missing
    keys, and with the same parameters when there is neither. *)
Definition loads_alike {A : Type} (x y : loaded A) : Prop :=
  x.1.2 = y.1.2 ∧ x.2 = y.2 ∧ (x.1.2 = [] → x.2 = [] → x.1.1 = y.1.1).

(** A generator that fills every tensor with its state, a running count. *)
Definition counting_init (g : nat) (s : list nat) : list R * nat :=
  (repeat (INR g) (foldr Nat.mul 1 s), S g).

(** A checkpoint for [net_3_4_10] that records the sizes 3 and 10, with a
    comment added under a fifth key. *)
Definition checkpoint_3_4_10 : gmap string pyobj :=
  {[ "input_size" := PyInt 3;
     "output_size" := PyInt 10;
     "hidden_layers" := PyList [PyInt 4];
     "state_dict" := PyStateDict (state_dict net_3_4_10);
     "note" := PyList [] ]}.

Definition world_3_4_10 : @world () :=
  World {[ "net.pth" := PyDict checkpoint_3_4_10 ]} () [].

(** The same checkpoint without the comment, in another file of a world
    where a key has been read already. *)
Definition world_3_4_10_plain : @world () :=
  World {[ "plain.pth" := PyDict (delete "note" checkpoint_3_4_10) ]} () ["note"].

(** A dictionary that stops after [input_size]. *)
(** A checkpoint of [net_3_4_10] whose [state_dict] entry is a plain
    dictionary of tensors, and the file that holds it. *)
Definition checkpoint_plain_dict : gmap string pyobj :=
  {[ "input_size" := PyInt 3;
     "output_size" := PyInt 10;
     "hidden_layers" := PyList [PyInt 4];
     "state_dict" := PyDict (PyTensor <$> state_dict net_3_4_10) ]}.
Definition world_plain_dict : @world () :=
  World {[ "plain_dict.pth" := PyDict checkpoint_plain_dict ]} () [].

(** The file [net.pth] beside another file, with the counting generator
    at 7. *)
Definition world_counting : @world nat :=
  World {[ "net.pth" := PyDict checkpoint_3_4_10;
           "other.pth" := PyInt 0 ]} 7 ["earlier"].

(** The sizes of [Network(3, 10, [4])] without a [state_dict], and a
    checkpoint whose list of hidden sizes is empty. *)
Definition world_sizes_only : @world () :=
  World {[ "sizes.pth" := PyDict (delete "state_dict" checkpoint_3_4_10) ]} () [].
Definition world_no_hidden_layer : @world () :=
  World {[ "flat.pth" :=
             PyDict (<["hidden_layers" := PyList []]> checkpoint_3_4_10) ]} () [].

Definition world_half_checkpoint : @world () :=
  World {[ "half.pth" := PyDict {[ "input_size" := PyInt 3 ]} ]} () [].

(** * Part 3: autograd, the training loop, the models *)

Local Open Scope R_scope.

(** ** Tensor operations of the framework *)

(** Modelled from the spec: the tensor operations are the framework's, not
    among the source files.  [t.zero_()]. *)
Definition zero_ (t : tensor) : tensor :=
  Tensor (shape t) ((λ _, 0) <$> data t).

(** Modelled from the spec (tensor operations, as above): [a + b], entry
    by entry. *)
Definition tensor_add (a b : tensor) : tensor :=
  Tensor (shape a) (zip_with Rplus (data a) (data b)).

(** Modelled from the spec (tensor operations, as above): [a.add_(c, b)],
    that is [a + c * b], entry by entry. *)
Definition add_scaled (c : R) (a b : tensor) : tensor :=
  Tensor (shape a) (zip_with (λ x g, x + c * g) (data a) (data b)).

(** Modelled from the spec (tensor operations, as above): [t / c]. *)
Definition tensor_div (t : tensor) (c : R) : tensor :=
  Tensor (shape t) ((λ v, v / c) <$> data t).

(** The sum of the entries. *)
Definition sum_list (xs : list R) : R := foldr Rplus 0 xs.

(** Modelled from the spec: the framework's tensors that require gradients
    are not among the source files.  A leaf of the autograd graph (a tensor
    made with [requires_grad=True], or a parameter of a layer): its value
    and its [.grad], which is [None] until a backward pass reaches it
    (cells 22 and 25 of Part 3 print [None]). *)
Record Param := MkParam { value : tensor; grad : option tensor }.

(** Modelled from the spec: the autograd engine is the framework's.  How
    it stores an incoming gradient in a leaf: the first one is kept as it
    is, later ones are added to what is there ("the gradients are
    accumulated", Part 3). *)
Definition accumulate (old : option tensor) (g : tensor) : option tensor :=
  match old with
  | None => Some g
  | Some o => Some (tensor_add o g)
  end.

(** Modelled from the spec (autograd engine, as above): the backward pass
    hands each parameter its gradient, in order; a parameter that receives
    none keeps its [.grad]. *)
Fixpoint store_grads (ps : list Param) (gs : list tensor) : list Param :=
  match ps, gs with
  | q :: ps', g :: gs' =>
      MkParam (value q) (accumulate (grad q) g) :: store_grads ps' gs'
  | _, _ => ps
  end.

(** ** The autograd cells (cells 18 to 23 of Part 3) *)

(** Modelled from the spec (autograd engine, as above): the graph that the
    forward operations of cells 19 and 21 record; the constructors carry
    the names the notebook prints for [grad_fn]. *)
Inductive node :=
| Leaf (x : tensor)
| PowBackward0 (input : node) (exponent : nat)
| MeanBackward1 (input : node).

(** Modelled from the spec (autograd engine, as above): the value held by
    the tensor a node belongs to, [x ** e] and [y.mean()]. *)
Fixpoint node_value (n : node) : tensor :=
  match n with
  | Leaf x => x
  | PowBackward0 input e =>
      Tensor (shape (node_value input)) ((λ v, v ^ e) <$> data (node_value input))
  | MeanBackward1 input =>
      let xs := data (node_value input) in
      Tensor [] [sum_list xs / INR (length xs)]
  end.

(** Modelled from the spec (autograd engine, as above): the framework's
    backward pass from a node down to the leaf, by the chain rule:
    [d(v^e) = e v^(e-1) dv] and [d(mean v) = (sum dv) / n]. *)
Fixpoint torch_backward (n : node) (grad_output : list R) : list R :=
  match n with
  | Leaf _ => grad_output
  | PowBackward0 input e =>
      torch_backward input
        (zip_with (λ g v, g * (INR e * v ^ (e - 1)))
           grad_output (data (node_value input)))
  | MeanBackward1 input =>
      let xs := data (node_value input) in
      torch_backward input
        ((λ _, hd 0 grad_output / INR (length xs)) <$> xs)
  end.

Section Autograd.

(** The backward pass as the cells see it: some function from a graph and
    the gradient of its root to the gradient of the leaf. *)
Variable engine : node → list R → list R.

(** What cells 18 to 23 hold and show. *)
Record session := Session {
  x : Param;
  y : node;
  z : node;
  shown : list (option tensor) }.

(** Cell 18: [x = torch.randn(2,2, requires_grad=True)], [x0] being the
    tensor drawn; cell 19: [y = x**2]; cell 21: [z = y.mean()];
    cell 22: [print(x.grad)]. *)
Definition cells_18_to_22 (x0 : tensor) : session :=
  let x := MkParam x0 None in
  let y := PowBackward0 (Leaf (value x)) 2 in
  let z := MeanBackward1 y in
  Session x y z [grad x].

(** Modelled from the spec (autograd engine, as above): [z.backward()] for
    a scalar [z]; the gradient of the root is 1 and what [engine] returns
    is accumulated in the leaf. *)
Definition backward (z : node) (x : Param) : Param :=
  MkParam (value x)
    (accumulate (grad x) (Tensor (shape (value x)) (engine z [1]))).

(** Cell 23: [z.backward()], [print(x.grad)], [print(x/2)]. *)
Definition cell_23 (s : session) : session :=
  let x' := backward (z s) (x s) in
  Session x' (y s) (z s)
    (shown s ++ [grad x'; Some (tensor_div (value x') 2)]).

End Autograd.

(** ** One training step and the training loop (cells 24 to 36 of Part 3) *)

(** A framework call made on the parameters, as recorded in the log of a
    run; [call_step] keeps the gradients the optimizer found. *)
Inductive call {batch : Type} :=
| call_zero_grad
| call_forward (b : batch)
| call_backward
| call_step (consumed : list (option tensor)).
Arguments call : clear implicits.

(** The parameters that [model] and [optimizer] share, the accumulator
    [running_loss], the numbers printed and the log of calls (a ghost
    field: the code never reads it). *)
Record trainer {batch : Type} := Trainer {
  params : list Param;
  running_loss : R;
  printed : list R;
  calls : list (call batch) }.
Arguments trainer : clear implicits.
Arguments Trainer {batch}.

(** The exception that the code of cell 36 raises by itself:
    [len(trainloader)] may not be zero when the loss is averaged.  The
    framework calls of the loop are taken to return; the sizes this needs
    are hypotheses of the theorems on the loop. *)
Inductive train_exn := ZeroDivisionError.

Section Training.

(** A batch [(images, labels)] of the loader, and the two things the
    framework computes from the parameter values and a batch:
    [criterion(model.forward(images), labels)] and, in the backward pass,
    the gradient of that loss for every parameter. *)
Context {batch : Type}.
Variable loss_of : list tensor → batch → R.
Variable autograd : list tensor → batch → list tensor.

(** Modelled from the spec: the optimizer is the framework's, not among the
    source files.  [optimizer.zero_grad()]: every gradient that exists is
    zeroed in place. *)
Definition zero_grad (ps : list Param) : list Param :=
  (λ q, MkParam (value q) (zero_ <$> grad q)) <$> ps.

(** Modelled from the spec (autograd engine, as above): the loss tensor,
    that is its number and the graph, which remembers the parameter values
    and the batch of the forward pass. *)
Record loss_tensor := Loss { item : R; graph : list tensor * batch }.

(** [output = model.forward(images)] then
    [loss = criterion(output, labels)]. *)
Definition forward_loss (ps : list Param) (b : batch) : loss_tensor :=
  Loss (loss_of (value <$> ps) b) (value <$> ps, b).

(** Modelled from the spec (autograd engine, as above): [loss.backward()];
    each parameter accumulates its gradient. *)
Definition loss_backward (loss : loss_tensor) (ps : list Param) : list Param :=
  store_grads ps (autograd (graph loss).1 (graph loss).2).

(** Modelled from the spec: the optimizer is the framework's, not among the
    source files.  [optimizer.step()] of
    [optim.SGD(model.parameters(), lr=lr)]: parameters without gradient are
    skipped, the others move by [- lr * grad]. *)
Definition sgd_step (lr : R) (ps : list Param) : list Param :=
  (λ q, match grad q with
        | None => q
        | Some g => MkParam (add_scaled (- lr) (value q) g) (grad q)
        end) <$> ps.

(** [model[0].weight.grad]: the gradient of the first parameter. *)
Definition first_weight_grad (ps : list Param) : option tensor :=
  head ps ≫= grad.

(** Cell 25: [print(model[0].weight.grad)], [loss.backward()],
    [print(model[0].weight.grad)], with the loss of cell 24; the result is
    the parameters afterwards and the two things printed. *)
Definition cell_25 (ps : list Param) (b : batch)
    : list Param * (option tensor * option tensor) :=
  let loss := forward_loss ps b in
  let before := first_weight_grad ps in
  let ps' := loss_backward loss ps in
  (ps', (before, first_weight_grad ps')).

(** Cell 28, one training step by hand on the model whose parameters
    still hold the gradients of cell 25; the result is the parameters
    afterwards and the gradient printed:
[[
optimizer.zero_grad()
output = model.forward(images)
loss = criterion(output, labels)
loss.backward()
print('Gradient -', model[0].weight.grad)
]] *)
Definition cell_28 (ps : list Param) (b : batch)
    : list Param * option tensor :=
  let ps := zero_grad ps in
  let loss := forward_loss ps b in
  let ps := loss_backward loss ps in
  (ps, first_weight_grad ps).

(** Cell 29: [optimizer.step()], the optimizer being the
    [optim.SGD(model.parameters(), lr=0.01)] of cell 27. *)
Definition cell_29 (ps : list Param) : list Param := sgd_step (1 / 100) ps.

(** The body of the inner loop of cell 36; its first line flattens the
    images, and [b] stands for the flattened images with their labels:
[[
        images = images.view(images.shape[0], -1)
        optimizer.zero_grad()
        output = model.forward(images)
        loss = criterion(output, labels)
        loss.backward()
        optimizer.step()
        running_loss += loss.item()
]] *)
Definition training_pass (lr : R) (s : trainer batch) (b : batch)
    : trainer batch :=
  let ps := zero_grad (params s) in
  let loss := forward_loss ps b in
  let ps := loss_backward loss ps in
  let consumed := grad <$> ps in
  let ps := sgd_step lr ps in
  Trainer ps (running_loss s + item loss) (printed s)
    (calls s ++ [call_zero_grad; call_forward b; call_backward;
                 call_step consumed]).

(** One turn of the outer loop: [running_loss = 0], the inner loop over the
    batches the loader yields, then the [else] branch, which prints
    [running_loss/len(trainloader)]; the length of a [DataLoader] is the
    number of batches it yields in an epoch. *)
Definition epoch (lr : R) (s : trainer batch) (batches : list batch)
    : train_exn + trainer batch :=
  let s := Trainer (params s) 0 (printed s) (calls s) in
  let s := foldl (training_pass lr) s batches in
  match batches with
  | [] => inl ZeroDivisionError
  | _ => inr (Trainer (params s) (running_loss s)
                (printed s ++ [running_loss s / INR (length batches)])
                (calls s))
  end.

(** [for e in range(epochs)]: [trainloader e] is the list of batches the
    shuffling loader yields in epoch [e]. *)
Fixpoint epochs_from (lr : R) (trainloader : nat → list batch)
    (e n : nat) (s : trainer batch) : train_exn + trainer batch :=
  match n with
  | O => inr s
  | S n' =>
      match epoch lr s (trainloader e) with
      | inl err => inl err
      | inr s' => epochs_from lr trainloader (S e) n' s'
      end
  end.

(** Cell 36 after the model is built: [lr=0.003], [epochs = 5]. *)
Definition train (trainloader : nat → list batch) (s : trainer batch)
    : train_exn + trainer batch :=
  epochs_from (3 / 1000) trainloader 0 5 s.

(** Plain gradient descent on the parameter values, for comparison: the
    values before each pass and its batch. *)
Definition sgd_update (lr : R) (θ : list tensor) (b : batch) : list tensor :=
  zip_with (add_scaled (- lr)) θ (autograd θ b).

Fixpoint trajectory (lr : R) (θ : list tensor) (bs : list batch)
    : list (list tensor * batch) :=
  match bs with
  | [] => []
  | b :: bs' => (θ, b) :: trajectory lr (sgd_update lr θ b) bs'
  end.

(** The four calls of a pass whose [step] consumes exactly the gradient of
    the loss of batch [b] at the values [θ]. *)
Definition pass_calls (θb : list tensor * batch) : list (call batch) :=
  [call_zero_grad; call_forward θb.2; call_backward;
   call_step (Some <$> autograd θb.1 θb.2)].

(** The batches of epochs [e], [e+1], ..., [e+n-1] in a row. *)
Definition batches_from (trainloader : nat → list batch) (e n : nat)
    : list batch :=
  mjoin (trainloader <$> seq e n).

End Training.

(** Two tensors of one shape and one number of entries. *)
Definition same_size (a b : tensor) : Prop :=
  shape a = shape b ∧ length (data a) = length (data b).

(** A gradient left in [.grad] has the size of its parameter. *)
Definition grad_sized (q : Param) : Prop :=
  ∀ g, grad q = Some g → same_size (value q) g.

(** ** The [nn.Sequential] models of Part 3 *)

(** Modelled from the spec: the layer classes are the framework's, not
    among the source files.  These are the prebuilt layers the cells put
    into [nn.Sequential]. *)
Inductive layer :=
| Lin (l : Linear)
| ReLU
| LogSoftmax (dim : nat).

(** Modelled from the spec: [nn.Sequential] is a class of the framework,
    not among the source files.  Called on a sequence of modules it names
    its children by position; with an [OrderedDict] argument (cell 17) the
    names are given. *)
Definition nn_Sequential (args : list layer) : list (string * layer) :=
  imap (λ i l, (pretty i, l)) args.

(** The inner product of two rows. *)
Definition dot (u v : list R) : R := sum_list (zip_with Rmult u v).

(** The [n] rows of width [width] of a matrix stored row by row. *)
Fixpoint rows (n width : nat) (xs : list R) : list (list R) :=
  match n with
  | O => []
  | S n' => take width xs :: rows n' width (drop width xs)
  end.

(** Modelled from the spec (layer classes, as above): [nn.Linear] on one
    row of the batch, [row W^T + b]. *)
Definition linear_forward (l : Linear) (row : list R) : list R :=
  zip_with Rplus
    (dot row <$> rows (out_features l) (in_features l) (data (weight l)))
    (data (bias l)).

(** Modelled from the spec (layer classes, as above): [nn.ReLU] on one
    entry. *)
Definition relu (v : R) : R := Rmax 0 v.

(** Modelled from the spec (layer classes, as above): [LogSoftmax] along
    one row, every entry minus the logarithm of the sum of the exponentials
    of the row. *)
Definition log_softmax (row : list R) : list R :=
  (λ v, v - ln (sum_list (exp <$> row))) <$> row.

(** Modelled from the spec (layer classes, as above): [LogSoftmax] along
    the columns of the batch ([dim=0], "softmax across the rows, so each
    column sums to 1" in Part 3). *)
Definition log_softmax_columns (X : list (list R)) : list (list R) :=
  (λ row, imap (λ j v, v - ln (sum_list ((λ r, exp (nth j r 0)) <$> X))) row)
  <$> X.

(** Modelled from the spec (layer classes, as above): a layer applied to a
    batch, one row per example.  A batch has the two dimensions 0 and 1;
    the cells only use [dim=1]. *)
Definition apply_layer (l : layer) (X : list (list R)) : list (list R) :=
  match l with
  | Lin l => fmap (M := list) (linear_forward l) X
  | ReLU => fmap (M := list) (fmap (M := list) relu) X
  | LogSoftmax O => log_softmax_columns X
  | LogSoftmax (S _) => fmap (M := list) log_softmax X
  end.

(** Modelled from the spec ([nn.Sequential], as above): [forward] runs the
    children in order, each fed the output of the one before. *)
Definition forward (model : list (string * layer)) (X : list (list R))
    : list (list R) :=
  foldl (λ X child, apply_layer child.2 X) X model.






Section Models.

Context {rng : Type} (init : rng → list nat → list R * rng).

#[local] Existing Instances M_ret M_bind.

(** Cell 5 of Part 3:
[[
model = nn.Sequential(nn.Linear(784, 128),
                      nn.ReLU(),
                      nn.Linear(128, 64),
                      nn.ReLU(),
                      nn.Linear(64, 10))
]] *)
Definition model_cell_5 : M (list (string * layer)) :=
  l1 ← nn_Linear init 784 128;
  l2 ← nn_Linear init 128 64;
  l3 ← nn_Linear init 64 10;
  mret (nn_Sequential [Lin l1; ReLU; Lin l2; ReLU; Lin l3]).

(** Cell 17 of Part 3:
[[
model = nn.Sequential(OrderedDict([("f1", nn.Linear(784,128)),
                                   ("relu_first", nn.ReLU()),
                                  ("f2", nn.Linear(128,64)),
                                  ("relu_second",nn.ReLU()),
                                  ("output", nn.Linear(64,10)),
                                  ("log_softmax", nn.LogSoftmax(dim=1))]))
]] *)
Definition model_cell_17 : M (list (string * layer)) :=
  l1 ← nn_Linear init 784 128;
  l2 ← nn_Linear init 128 64;
  l3 ← nn_Linear init 64 10;
  mret [("f1", Lin l1); ("relu_first", ReLU); ("f2", Lin l2);
        ("relu_second", ReLU); ("output", Lin l3);
        ("log_softmax", LogSoftmax 1)].




End Models.

(** ** Concrete inputs for Part 3 *)

(** A loss whose gradient at [θ] is [θ] itself (half the sum of squares),
    a loader with one batch per epoch, and one parameter that still holds
    a gradient from an earlier backward pass. *)
Definition squares_loss (θ : list tensor) (b : nat) : R :=
  sum_list ((λ t, sum_list ((λ v, v * v / 2) <$> data t)) <$> θ).
Definition squares_grad (θ : list tensor) (b : nat) : list tensor := θ.
Definition one_batch_loader (e : nat) : list nat := [e].
Definition stale_trainer : trainer nat :=
  Trainer [MkParam (Tensor [2%nat] [1; 2]) (Some (Tensor [2%nat] [5; 5]))] 0 [] [].

(** ** More of Part 3: losses and predictions *)

(** Modelled from the spec: [F.softmax] is the framework's, not among the
    source files.  [F.softmax(., dim=1)] on one row: the exponentials
    divided by their sum. *)
Definition softmax (row : list R) : list R :=
  (λ v, exp v / sum_list (exp <$> row)) <$> row.

(** Modelled from the spec: [nn.NLLLoss] is the framework's, not among the
    source files.  The mean over the batch of minus the output at the
    label. *)
Definition nll_loss (output : list (list R)) (labels : list nat) : R :=
  sum_list (zip_with (λ row label, - nth label row 0) output labels)
  / INR (length output).

(** Modelled from the spec: [nn.CrossEntropyLoss] is the framework's, not
    among the source files.  The mean over the batch of the logarithm of
    the sum of the exponentials of the scores minus the score at the label
    (Part 3: "the raw output of our network", "This criterion combines
    [nn.LogSoftmax()] and [nn.NLLLoss()] in one single class"). *)
Definition cross_entropy_loss (logits : list (list R)) (labels : list nat) : R :=
  sum_list (zip_with (λ row label, ln (sum_list (exp <$> row)) - nth label row 0)
              logits labels)
  / INR (length logits).

(** Cell 5 after the model is built, [images] being the flattened batch and
    [criterion = nn.CrossEntropyLoss()]:
[[
logits = model(images)
loss = criterion(logits, labels)
]] *)
Definition cell_5_loss (model : list (string * layer))
    (images : list (list R)) (labels : list nat) : R :=
  let logits := forward model images in
  cross_entropy_loss logits labels.

(** Cell 17 after the model is built, with [criterion = nn.NLLLoss()]:
[[
logits = model(images)
loss = criterion(logits, labels)
]] *)
Definition cell_17_loss (model : list (string * layer))
    (images : list (list R)) (labels : list nat) : R :=
  let logits := forward model images in
  nll_loss logits labels.

(** Cell 41, [img] being the 784 entries of [images[0]]:
[[
img = images[0].view(1, 784)
with torch.no_grad():
    logits = model.forward(img)
ps = F.softmax(logits, dim=1)
]] *)
Definition cell_41 (model : list (string * layer)) (img : list R)
    : list (list R) :=
  let logits := forward model [img] in
  fmap (M := list) softmax logits.

(** The generator draws as many entries as the shape asks for. *)
Definition init_sized {rng : Type} (init : rng → list nat → list R * rng)
    : Prop :=
  ∀ g s, length (init g s).1 = foldr Nat.mul 1%nat s.

(** A row of log-probabilities: no entry above 0 and exponentials that sum
    to 1. *)
Definition log_probabilities (row : list R) : Prop :=
  Forall (λ v, v <= 0) row ∧ sum_list (exp <$> row) = 1.

(** A row of probabilities. *)
Definition probabilities (row : list R) : Prop :=
  Forall (λ q, 0 < q <= 1) row ∧ sum_list row = 1.

(** The mean loss that an epoch of plain gradient descent from the values
    [θ] over the batches [bs] sees. *)
Definition epoch_mean {batch : Type} (loss_of : list tensor → batch → R)
    (autograd : list tensor → batch → list tensor)
    (lr : R) (θ : list tensor) (bs : list batch) : R :=
  sum_list ((λ θb, loss_of θb.1 θb.2) <$> trajectory autograd lr θ bs)
  / INR (length bs).

(** The mean losses of the epochs [e], [e+1], ..., [e+n-1]. *)
Fixpoint epoch_means {batch : Type} (loss_of : list tensor → batch → R)
    (autograd : list tensor → batch → list tensor)
    (lr : R) (trainloader : nat → list batch) (e n : nat) (θ : list tensor)
    : list R :=
  match n with
  | O => []
  | S n' =>
      epoch_mean loss_of autograd lr θ (trainloader e)
      :: epoch_means loss_of autograd lr trainloader (S e) n'
           (foldl (sgd_update autograd lr) θ (trainloader e))
  end.

(** The shapes and numbers of entries of a list of tensors. *)
Definition tensor_sizes (θ : list tensor) : list (list nat * nat) :=
  (λ t, (shape t, length (data t))) <$> θ.

(** A [Linear] with the sizes of [nn.Linear(i, o)] whose tensors hold as
    many entries as their shapes say. *)
Definition well_formed (i o : nat) (l : Linear) : Prop :=
  layer_shapes l = arch (i, o) ∧
  length (data (weight l)) = (o * i)%nat ∧
  length (data (bias l)) = o.


(** An [nn.Linear(i, o)] whose entries are all zero. *)
Definition blank_Linear (i o : nat) : Linear :=
  MkLinear i o (Tensor [o; i] (repeat 0 (o * i))) (Tensor [o] (repeat 0 o)).

(** Two images of 784 zeros and their labels. *)
Definition two_blank_images : list (list R) := [repeat 0 784; repeat 0 784].
Definition two_labels : list nat := [3%nat; 7%nat].

Local Close Scope R_scope.

(** * Properties *)

(** ** Parameter names are pairwise distinct *)

Lemma append_cons a s t : String a s +:+ t = String a (s +:+ t).
Proof. reflexivity. Qed.

Lemma append_assoc (s t u : string) : (s +:+ t) +:+ u = s +:+ (t +:+ u).
Proof. induction s as [|a s IH]; [done|]. by rewrite !append_cons, IH. Qed.

Lemma pretty_N_go_no_dot x s : no_dot s → no_dot (pretty_N_go x s).
Proof.
  revert s. induction (N.lt_wf_0 x) as [x _ IH]; intros s Hs.
  destruct (decide (x = 0)%N) as [->|Hx]; [by rewrite pretty_N_go_0|].
  rewrite pretty_N_go_step by lia. apply IH.
  - apply N.div_lt; lia.
  - split; [|done]. unfold pretty_N_char. by repeat case_match.
Qed.

Lemma pretty_nat_no_dot (i : nat) : no_dot (pretty i).
Proof.
  unfold pretty, pretty_nat, pretty, pretty_N. case_decide.
  - by split.
  - by apply pretty_N_go_no_dot.
Qed.

Lemma split_at_dot s1 s2 a b :
  no_dot s1 → no_dot s2 →
  s1 +:+ String "." a = s2 +:+ String "." b → s1 = s2 ∧ a = b.
Proof.
  revert s2. induction s1 as [|c s1 IH]; intros [|d s2] H1 H2 Heq.
  - by injection Heq.
  - rewrite append_cons in Heq. injection Heq as <- _. by destruct H2.
  - rewrite append_cons in Heq. injection Heq as -> _. by destruct H1.
  - rewrite !append_cons in Heq. injection Heq as -> Heq.
    destruct H1 as [_ H1], H2 as [_ H2].
    destruct (IH _ H1 H2 Heq) as [-> ->]. done.
Qed.

Lemma hidden_key_eq i sfx :
  hidden_prefix i +:+ sfx = "hidden_layers." +:+ (pretty i +:+ String "." sfx).
Proof. unfold hidden_prefix. by rewrite !append_assoc. Qed.

Lemma hidden_key_inj i j a b :
  hidden_prefix i +:+ a = hidden_prefix j +:+ b → i = j ∧ a = b.
Proof.
  rewrite !hidden_key_eq. intros Heq%(inj _).
  apply split_at_dot in Heq as [Hp ->]; auto using pretty_nat_no_dot.
  by apply (inj _) in Hp.
Qed.

Lemma hidden_key_not_output i a b : hidden_prefix i +:+ a ≠ "output." +:+ b.
Proof. rewrite hidden_key_eq. discriminate. Qed.

Lemma elem_of_hidden_parameters i ls k t :
  (k, t) ∈ hidden_parameters i ls →
  ∃ j l, ls !! (j - i) = Some l ∧ i ≤ j ∧
    ((k = hidden_prefix j +:+ "weight" ∧ t = weight l) ∨
     (k = hidden_prefix j +:+ "bias" ∧ t = bias l)).
Proof.
  revert i. induction ls as [|l ls IH]; intros i; simpl; [by intros ?%elem_of_nil|].
  rewrite !elem_of_cons. intros [[= -> ->]|[[= -> ->]|Hin]].
  - exists i, l. rewrite Nat.sub_diag. naive_solver.
  - exists i, l. rewrite Nat.sub_diag. naive_solver.
  - destruct (IH _ Hin) as (j & l' & Hl & Hij & Hk).
    exists j, l'. split_and!; [|lia|done].
    by replace (j - i) with (S (j - S i)) by lia.
Qed.

Lemma hidden_keys_from i ls k :
  k ∈ (hidden_parameters i ls).*1 →
  ∃ j sfx, i ≤ j ∧ k = hidden_prefix j +:+ sfx.
Proof.
  intros [[k' t] [-> Hin]]%list_elem_of_fmap.
  apply elem_of_hidden_parameters in Hin as (j & l & _ & Hij & [[-> _]|[-> _]]);
    eauto.
Qed.

Lemma NoDup_hidden_keys i ls : NoDup (hidden_parameters i ls).*1.
Proof.
  revert i. induction ls as [|l ls IH]; intros i; simpl; [constructor|].
  apply NoDup_cons; split; [|apply NoDup_cons; split; [|apply IH]].
  - rewrite elem_of_cons. intros [Heq|Hin].
    + by apply hidden_key_inj in Heq as [_ [=]].
    + apply hidden_keys_from in Hin as (j & sfx & Hij & Heq).
      apply hidden_key_inj in Heq as [-> _]. lia.
  - intros Hin. apply hidden_keys_from in Hin as (j & sfx & Hij & Heq).
    apply hidden_key_inj in Heq as [-> _]. lia.
Qed.

Lemma NoDup_named_parameters m : NoDup (named_parameters m).*1.
Proof.
  unfold named_parameters. rewrite fmap_app. apply NoDup_app; split_and!.
  - apply NoDup_hidden_keys.
  - intros k (j & sfx & _ & ->)%hidden_keys_from. simpl.
    rewrite !elem_of_cons, elem_of_nil.
    intros [Heq|[Heq|[]]]; by apply hidden_key_not_output in Heq.
  - simpl. apply NoDup_cons; split; [|apply NoDup_singleton].
    rewrite list_elem_of_singleton. discriminate.
Qed.

(** Every named parameter is found under its key in the [state_dict]. *)
Lemma state_dict_lookup m k t :
  (k, t) ∈ named_parameters m ↔ state_dict m !! k = Some t.
Proof. apply elem_of_list_to_map, NoDup_named_parameters. Qed.

(** The keys of a [state_dict] depend on the number of hidden layers only. *)
Lemma hidden_keys_length i ls1 ls2 :
  length ls1 = length ls2 →
  (hidden_parameters i ls1).*1 = (hidden_parameters i ls2).*1.
Proof.
  revert i ls2. induction ls1 as [|l1 ls1 IH]; intros i [|l2 ls2] [=]; [done|].
  simpl. f_equal. f_equal. by apply IH.
Qed.

Lemma state_dict_dom m1 m2 :
  length (hidden_layers m1) = length (hidden_layers m2) →
  dom (state_dict m1) = dom (state_dict m2).
Proof.
  intros Hlen. unfold state_dict. rewrite !dom_list_to_map_L. f_equal.
  unfold named_parameters. rewrite !fmap_app. f_equal.
  by apply hidden_keys_length.
Qed.

(** ** [load_state_dict] *)

Lemma load_param_copy key param sd t :
  sd !! key = Some t → shape t = shape param →
  load_param key param sd = (t, [], []).
Proof.
  intros Hk Hs. unfold load_param. rewrite Hk, decide_True by done.
  rewrite <-Hs. by destruct t.
Qed.

Lemma load_param_mismatch key param sd t :
  sd !! key = Some t → shape t ≠ shape param →
  load_param key param sd
  = (param, [size_mismatch key (shape t) (shape param)], []).
Proof. intros Hk Hs. unfold load_param. by rewrite Hk, decide_False. Qed.

Lemma load_linear_exact prefix l1 l sd :
  layer_shapes l1 = layer_shapes l →
  sd !! (prefix +:+ "weight") = Some (weight l) →
  sd !! (prefix +:+ "bias") = Some (bias l) →
  load_linear prefix l1 sd = (l, [], []).
Proof.
  intros [= Hi Ho Hw Hb] Hkw Hkb. unfold load_linear.
  rewrite (load_param_copy _ _ _ _ Hkw), (load_param_copy _ _ _ _ Hkb) by done.
  rewrite Hi, Ho. by destruct l.
Qed.

Lemma load_hidden_exact i ls1 ls sd :
  layer_shapes <$> ls1 = layer_shapes <$> ls →
  (∀ k t, (k, t) ∈ hidden_parameters i ls → sd !! k = Some t) →
  load_hidden i ls1 sd = (ls, [], []).
Proof.
  revert i ls. induction ls1 as [|l1 ls1 IH]; intros i [|l ls] [=] Hsd; [done|].
  assert (layer_shapes l1 = layer_shapes l) by (unfold layer_shapes; congruence).
  simpl in *. rewrite (load_linear_exact _ _ l), (IH (S i) ls); [done|done| | | |].
  - intros k t Hin. apply Hsd. set_solver.
  - done.
  - apply Hsd. set_solver.
  - apply Hsd. set_solver.
Qed.

(** Loading the [state_dict] of [m] into a model of the same architecture
    yields the layers of [m]; the [Dropout] module has no parameter and
    stays as it was. *)
Lemma load_state_dict_exact m1 m :
  layer_shapes <$> hidden_layers m1 = layer_shapes <$> hidden_layers m →
  layer_shapes (output m1) = layer_shapes (output m) →
  load_state_dict m1 (state_dict m)
  = (MkNetwork (hidden_layers m) (output m) (dropout m1), inr tt).
Proof.
  intros Hh Ho. unfold load_state_dict.
  rewrite (load_hidden_exact _ _ (hidden_layers m)), (load_linear_exact _ _ (output m));
    [|done|apply state_dict_lookup; unfold named_parameters; set_solver..|done|].
  - rewrite (state_dict_dom m m1), difference_diag_L, elements_empty; [done|].
    by rewrite <-(length_fmap layer_shapes), <-Hh, length_fmap.
  - intros k t Hin. apply state_dict_lookup. unfold named_parameters. set_solver.
Qed.

Lemma load_linear_agree prefix l sd :
  (∀ k param, (k, param) ∈ linear_parameters prefix l →
     ∃ t, sd !! k = Some t ∧ shape t = shape param) →
  ∃ l', load_linear prefix l sd = (l', [], []) ∧
    ∀ k t, (k, t) ∈ linear_parameters prefix l' → sd !! k = Some t.
Proof.
  intros Hsd.
  destruct (Hsd (prefix +:+ "weight") (weight l)) as (tw & Hkw & Hsw); [set_solver|].
  destruct (Hsd (prefix +:+ "bias") (bias l)) as (tb & Hkb & Hsb); [set_solver|].
  unfold load_linear.
  rewrite (load_param_copy _ _ _ _ Hkw), (load_param_copy _ _ _ _ Hkb) by done.
  eexists; split; [done|]. unfold linear_parameters; simpl.
  intros k t. rewrite !elem_of_cons, elem_of_nil.
  by intros [[= -> ->]|[[= -> ->]|[]]].
Qed.

Lemma load_hidden_agree i ls sd :
  (∀ k param, (k, param) ∈ hidden_parameters i ls →
     ∃ t, sd !! k = Some t ∧ shape t = shape param) →
  ∃ ls', load_hidden i ls sd = (ls', [], []) ∧ length ls' = length ls ∧
    ∀ k t, (k, t) ∈ hidden_parameters i ls' → sd !! k = Some t.
Proof.
  revert i. induction ls as [|l ls IH]; intros i Hsd; simpl.
  { exists []. split_and!; [done..|]. intros k t []%elem_of_nil. }
  destruct (load_linear_agree (hidden_prefix i) l sd) as (l' & -> & Hl').
  { intros k param Hin. apply Hsd.
    change (hidden_parameters i (l :: ls))
      with (linear_parameters (hidden_prefix i) l ++ hidden_parameters (S i) ls).
    apply elem_of_app. by left. }
  destruct (IH (S i)) as (ls' & -> & Hlen & Hls').
  { intros k param Hin. apply Hsd.
    change (hidden_parameters i (l :: ls))
      with (linear_parameters (hidden_prefix i) l ++ hidden_parameters (S i) ls).
    apply elem_of_app. by right. }
  exists (l' :: ls'). split_and!; [done|by simpl; f_equal|].
  intros k t. change (hidden_parameters i (l' :: ls'))
    with (linear_parameters (hidden_prefix i) l' ++ hidden_parameters (S i) ls').
  rewrite elem_of_app. intros [?|?]; eauto.
Qed.

Lemma load_linear_mismatch prefix l sd k param t :
  (k, param) ∈ linear_parameters prefix l →
  sd !! k = Some t → shape t ≠ shape param →
  size_mismatch k (shape t) (shape param) ∈ (load_linear prefix l sd).1.2.
Proof.
  unfold linear_parameters. rewrite !elem_of_cons, elem_of_nil.
  intros [[= -> ->]|[[= -> ->]|[]]] Hk Hs; unfold load_linear.
  - rewrite (load_param_mismatch _ _ _ _ Hk Hs).
    destruct (load_param _ (bias l) sd) as [[??]?]. simpl. set_solver.
  - rewrite (load_param_mismatch _ _ _ _ Hk Hs).
    destruct (load_param _ (weight l) sd) as [[??]?]. simpl. set_solver.
Qed.

Lemma load_hidden_mismatch i ls sd k param t :
  (k, param) ∈ hidden_parameters i ls →
  sd !! k = Some t → shape t ≠ shape param →
  size_mismatch k (shape t) (shape param) ∈ (load_hidden i ls sd).1.2.
Proof.
  revert i. induction ls as [|l ls IH]; intros i; simpl; [by intros ?%elem_of_nil|].
  change ((?a, ?b) :: (?c, ?d) :: ?r) with (linear_parameters (hidden_prefix i) l ++ r).
  rewrite elem_of_app. intros Hin Hk Hs.
  pose proof (load_linear_mismatch (hidden_prefix i) l sd k param t) as H1.
  pose proof (IH (S i)) as H2.
  destruct (load_linear _ l sd) as [[??]?], (load_hidden _ ls sd) as [[??]?].
  simpl in *. rewrite elem_of_app. destruct Hin; auto.
Qed.

Lemma load_linear_keeps_shapes prefix l sd :
  layer_shapes (load_linear prefix l sd).1.1 = layer_shapes l.
Proof.
  unfold load_linear, load_param.
  destruct (sd !! (prefix +:+ "weight")) as [tw|], (sd !! (prefix +:+ "bias")) as [tb|];
    repeat case_decide; done.
Qed.

Lemma load_hidden_keeps_shapes i ls sd :
  layer_shapes <$> (load_hidden i ls sd).1.1 = layer_shapes <$> ls.
Proof.
  revert i. induction ls as [|l ls IH]; intros i; [done|]. simpl.
  pose proof (load_linear_keeps_shapes (hidden_prefix i) l sd) as Hl.
  specialize (IH (S i)).
  destruct (load_linear _ l sd) as [[??]?], (load_hidden _ ls sd) as [[??]?].
  simpl in *. by f_equal.
Qed.

Lemma load_linear_clean prefix l sd l' :
  load_linear prefix l sd = (l', [], []) →
  ∀ k param, (k, param) ∈ linear_parameters prefix l →
    ∃ t, sd !! k = Some t ∧ shape t = shape param.
Proof.
  unfold load_linear, load_param, linear_parameters. intros Hl k param.
  rewrite !elem_of_cons, elem_of_nil. intros [[= -> ->]|[[= -> ->]|[]]];
    destruct (sd !! (prefix +:+ "weight")) as [tw|], (sd !! (prefix +:+ "bias")) as [tb|];
    repeat case_decide; simplify_eq/=; eauto.
Qed.

Lemma load_hidden_clean i ls sd ls' :
  load_hidden i ls sd = (ls', [], []) →
  ∀ k param, (k, param) ∈ hidden_parameters i ls →
    ∃ t, sd !! k = Some t ∧ shape t = shape param.
Proof.
  revert i ls'. induction ls as [|l ls IH]; intros i ls' Hl k param; simpl.
  { by intros ?%elem_of_nil. }
  simpl in Hl.
  destruct (load_linear _ l sd) as [[l1 e1] m1] eqn:H1,
    (load_hidden _ ls sd) as [[ls1 e2] m2] eqn:H2.
  injection Hl as _ [-> ->]%app_eq_nil [-> ->]%app_eq_nil.
  change ((?a, ?b) :: (?c, ?d) :: ?r) with (linear_parameters (hidden_prefix i) l ++ r).
  rewrite elem_of_app. intros [Hin|Hin].
  - by eapply load_linear_clean.
  - by eapply IH.
Qed.

(** A state dict with the keys of the model and, key by key, its shapes is
    taken over as it is. *)
Lemma load_state_dict_agree (m : Network) (sd : gmap string tensor) :
  dom sd = dom (state_dict m) →
  (∀ k param, (k, param) ∈ named_parameters m →
     ∃ t, sd !! k = Some t ∧ shape t = shape param) →
  (load_state_dict m sd).2 = inr () ∧
  state_dict (load_state_dict m sd).1 = sd.
Proof.
  intros Hdom Hall.
  destruct (load_hidden_agree 0 (hidden_layers m) sd) as (hs & Hhs & Hlen & Hfound).
  { intros k param Hin. apply Hall, elem_of_app. by left. }
  destruct (load_linear_agree "output." (output m) sd) as (out & Hout & Hfound').
  { intros k param Hin. apply Hall, elem_of_app. by right. }
  unfold load_state_dict. rewrite Hhs, Hout, Hdom, difference_diag_L, elements_empty.
  simpl. split; [done|].
  set (m' := MkNetwork hs out (dropout m)).
  assert (dom (state_dict m') = dom sd) as Hdom'.
  { rewrite Hdom. by apply state_dict_dom. }
  apply map_eq. intros k. destruct (state_dict m' !! k) as [t|] eqn:Hk.
  - apply state_dict_lookup in Hk. unfold named_parameters in Hk. simpl in Hk.
    apply elem_of_app in Hk as [?|?]; symmetry; eauto.
  - apply not_elem_of_dom in Hk. rewrite Hdom' in Hk.
    by apply not_elem_of_dom in Hk.
Qed.

(** When [load_state_dict] raises nothing, the model afterwards has the
    tensors of the state dict and its old sizes. *)
Lemma load_state_dict_success (m1 m : Network) (sd : gmap string tensor) :
  load_state_dict m1 sd = (m, inr ()) →
  state_dict m = sd ∧
  layer_shapes <$> hidden_layers m = layer_shapes <$> hidden_layers m1 ∧
  layer_shapes (output m) = layer_shapes (output m1) ∧
  dropout m = dropout m1.
Proof.
  intros Hload.
  pose proof (load_hidden_keeps_shapes 0 (hidden_layers m1) sd) as Hsh.
  pose proof (load_linear_keeps_shapes "output." (output m1) sd) as Hso.
  pose proof (load_state_dict_agree m1 sd) as Hagree.
  rewrite Hload in Hagree. simpl in Hagree.
  unfold load_state_dict in Hload.
  destruct (load_hidden 0 _ sd) as [[hs e1] mk1] eqn:Hh,
    (load_linear _ _ sd) as [[out e2] mk2] eqn:Ho.
  destruct (mk1 ++ mk2) as [|??] eqn:Hmiss; [|by simplify_eq/=].
  destruct (elements (dom sd ∖ dom (state_dict m1))) as [|??] eqn:Hunexp;
    [|by simplify_eq/=].
  destruct (e1 ++ e2) as [|??] eqn:Herr; [|by simplify_eq/=].
  apply app_eq_nil in Hmiss as [-> ->]. apply app_eq_nil in Herr as [-> ->].
  simpl in *. injection Hload as <-. simpl. split_and!; [|done..].
  assert (∀ k param, (k, param) ∈ named_parameters m1 →
    ∃ t, sd !! k = Some t ∧ shape t = shape param) as Hall.
  { intros k param [Hin|Hin]%elem_of_app.
    - by eapply load_hidden_clean.
    - by eapply load_linear_clean. }
  apply Hagree; [|done].
  apply elements_empty_iff in Hunexp. apply set_eq. intros k. split.
  - intros Hk. destruct (decide (k ∈ dom (state_dict m1))); [done|].
    exfalso. apply (not_elem_of_empty (C:=gset string) k).
    rewrite <-Hunexp. by apply elem_of_difference.
  - intros [param Hk%state_dict_lookup]%elem_of_dom.
    destruct (Hall k param Hk) as (t & Ht & _). by apply elem_of_dom.
Qed.

(** ** Running the cells of Part 6 *)

Section Part6.

Context {rng : Type} (init : rng → list nat → list R * rng).

#[local] Existing Instances M_ret M_bind.

Lemma bind_inr {A B} (c : M A) (k : A → M B) (w w' : @world rng) a :
  c w = (inr a, w') → (c ≫= k) w = k a w'.
Proof. intros H. unfold mbind, M_bind. by rewrite H. Qed.

Lemma nn_Linear_spec i o (w : @world rng) :
  ∃ l w', nn_Linear init i o w = (inr l, w') ∧
    files w' = files w ∧ reads w' = reads w ∧ layer_shapes l = arch (i, o).
Proof.
  unfold nn_Linear, mbind, M_bind, mret, M_ret, fresh.
  destruct (init (gen w) [o; i]) as [xs g]; simpl.
  destruct (init g [o]) as [ys g']; simpl. by eexists _, _.
Qed.

Lemma linears_spec sizes (w : @world rng) :
  ∃ ls w', linears init sizes w = (inr ls, w') ∧
    files w' = files w ∧ reads w' = reads w ∧ layer_shapes <$> ls = arch <$> sizes.
Proof.
  revert w. induction sizes as [|[i o] sizes IH]; intros w; simpl.
  { by exists [], w. }
  destruct (nn_Linear_spec i o w) as (l & w1 & Hl & Hf1 & Hr1 & Hs).
  destruct (IH w1) as (ls & w2 & Hls & Hf2 & Hr2 & Hss).
  exists (l :: ls), w2. rewrite (bind_inr _ _ _ _ _ Hl), (bind_inr _ _ _ _ _ Hls).
  split_and!; [done|congruence..|]. by rewrite fmap_cons, Hs, Hss.
Qed.

Lemma mk_Network_spec i o hs h (w : @world rng) :
  last hs = Some h →
  ∃ m w', mk_Network init i o hs w = (inr m, w') ∧
    files w' = files w ∧ reads w' = reads w ∧
    is_Network i o hs m ∧ dropout m = MkDropout (1 / 2).
Proof.
  intros Hlast. unfold mk_Network, is_Network. rewrite Hlast.
  destruct (linears_spec (zip (i :: hs) hs) w) as (ls & w1 & Hls & Hf1 & Hr1 & Hs).
  destruct (nn_Linear_spec h o w1) as (l & w2 & Hl & Hf2 & Hr2 & Hso).
  rewrite (bind_inr _ _ _ _ _ Hls), (bind_inr _ _ _ _ _ Hl).
  eexists _, w2. split_and!; [done|congruence..|done|done|done].
Qed.

Lemma as_ints_out_features (ls : list Linear) (w : @world rng) :
  as_ints ((λ each, PyInt (out_features each)) <$> ls) w
  = (inr (out_features <$> ls), w).
Proof.
  induction ls as [|l ls IH]; [done|]. simpl.
  erewrite bind_inr by reflexivity. by erewrite bind_inr by apply IH.
Qed.

Lemma checkpoint_lookup (model : Network) :
  checkpoint model !! "input_size" = Some (PyInt 784) ∧
  checkpoint model !! "output_size" = Some (PyInt 10) ∧
  checkpoint model !! "hidden_layers"
    = Some (PyList ((λ each, PyInt (out_features each)) <$> hidden_layers model)) ∧
  checkpoint model !! "state_dict" = Some (PyStateDict (state_dict model)).
Proof. done. Qed.

(** [save_then_load] up to the call of [load_state_dict]: all four keys
    have been read and a fresh [Network(784, 10, hs)] stands ready, [hs]
    being the saved list of hidden sizes. *)
Lemma save_then_load_run (model : Network) (w : @world rng) h :
  last (out_features <$> hidden_layers model) = Some h →
  ∃ m1 w',
    save_then_load init model w = do_load_state_dict m1 (state_dict model) w' ∧
    files w' = <["checkpoint.pth" := PyDict (checkpoint model)]> (files w) ∧
    reads w' = reads w ++ checkpoint_keys ∧
    is_Network 784 10 (out_features <$> hidden_layers model) m1 ∧
    dropout m1 = MkDropout (1 / 2).
Proof.
  intros Hlast. unfold save_then_load, save_checkpoint, load_checkpoint.
  set (w0 := World (<["checkpoint.pth" := PyDict (checkpoint model)]> (files w))
               (gen w) (reads w)).
  set (w3 := World (files w0) (gen w) (reads w ++ ["input_size"; "output_size"; "hidden_layers"])).
  destruct (mk_Network_spec 784 10 _ h w3 Hlast) as (m1 & w4 & Hm1 & Hf & Hr & Harch & Hdrop).
  exists m1, (World (files w4) (gen w4) (reads w4 ++ ["state_dict"])).
  split_and!; [|by rewrite Hf|simpl; rewrite Hr; simpl; by rewrite <-(assoc_L (++))|done..].
  destruct (checkpoint_lookup model) as (Hi & Ho & Hh & Hs).
  erewrite bind_inr by reflexivity.
  erewrite bind_inr by (unfold torch_load; simpl; by rewrite lookup_insert_eq).
  erewrite bind_inr by (unfold getitem; by rewrite Hi).
  erewrite bind_inr by (unfold getitem; by rewrite Ho).
  erewrite bind_inr by (unfold getitem; by rewrite Hh).
  erewrite bind_inr by reflexivity.
  erewrite bind_inr by reflexivity.
  erewrite bind_inr by apply as_ints_out_features.
  simpl. rewrite <-!(assoc_L (++)). simpl.
  erewrite bind_inr by apply Hm1.
  erewrite bind_inr by (unfold getitem; by rewrite Hs).
  by erewrite bind_inr by reflexivity.
Qed.

Lemma do_load_state_dict_world m sd (w : @world rng) :
  (do_load_state_dict m sd w).2 = w.
Proof.
  unfold do_load_state_dict. by destruct (load_state_dict m sd) as [? [?|?]].
Qed.

Lemma last_out_features (model : Network) :
  hidden_layers model ≠ [] →
  ∃ h, last (out_features <$> hidden_layers model) = Some h.
Proof.
  intros Hne. apply last_is_Some. by destruct (hidden_layers model).
Qed.

Lemma is_Network_hidden i o hs m :
  is_Network i o hs m → out_features <$> hidden_layers m = hs.
Proof.
  intros [Hh _].
  trans ((λ x, x.1.1.2) <$> (layer_shapes <$> hidden_layers m)).
  { rewrite <-list_fmap_compose. done. }
  rewrite Hh, <-list_fmap_compose.
  change (_ ∘ arch) with (@snd nat nat). apply snd_zip. simpl. lia.
Qed.

Lemma raise_if_nonempty (msgs : list load_error) e :
  e ∈ msgs →
  (if msgs is [] then inr () else inl (RuntimeError msgs))
  =@{exn + ()} inl (RuntimeError msgs).
Proof. destruct msgs; [by intros ?%elem_of_nil|done]. Qed.

(** C1. The keys [load_checkpoint] reads from a checkpoint written by cell
    11 are, as a set, the keys of the dictionary that cell 11 passes to
    [torch.save]: [input_size], [output_size], [hidden_layers] and
    [state_dict]. *)
Theorem checkpoint_keys_agree (model : Network) (w : @world rng) :
  hidden_layers model ≠ [] →
  reads (save_then_load init model w).2 = reads w ++ checkpoint_keys ∧
  list_to_set checkpoint_keys =@{gset string} dom (checkpoint model).
Proof.
  intros [h Hh]%last_out_features. split.
  - destruct (save_then_load_run model w h Hh) as (m1 & w' & -> & _ & Hr & _).
    by rewrite do_load_state_dict_world.
  - unfold checkpoint. rewrite !dom_insert_L, dom_singleton_L. set_solver.
Qed.

(** C2, as amended. For every model with the architecture of
    [Network(784, 10, hs)], saving the checkpoint of cell 11 and calling
    [load_checkpoint] on the file returns the layers of the saved model
    with the constructor's [Dropout(p=0.5)]: same input size, hidden sizes,
    output size and [state_dict]. *)
Theorem save_load_round_trip_784_10 (model : Network) (hs : list nat) :
  is_Network 784 10 hs model →
  round_trip init model ∧
  ∀ w : @world rng, ∃ w',
    save_then_load init model w
    = (inr (MkNetwork (hidden_layers model) (output model) (MkDropout (1 / 2))), w').
Proof.
  intros Hnet.
  assert (∀ w : @world rng, ∃ w',
    save_then_load init model w
    = (inr (MkNetwork (hidden_layers model) (output model) (MkDropout (1 / 2))), w'))
    as Hrun.
  { intros w. pose proof (is_Network_hidden _ _ _ _ Hnet) as Hhs.
    destruct Hnet as [Hh Ho]. destruct (last hs) as [h|] eqn:Hlast; [|done].
    destruct (save_then_load_run model w h) as (m1 & w' & -> & _ & _ & [Hh1 Ho1] & Hd).
    { by rewrite Hhs. }
    rewrite Hhs, Hlast in *. exists w'. unfold do_load_state_dict.
    rewrite load_state_dict_exact by congruence. by rewrite Hd. }
  split; [|done]. intros w. destruct (Hrun w) as [w' ->]. by eexists _, _.
Qed.

(** C3, as amended. [load_state_dict] raises [RuntimeError], with a
    [size mismatch] line for the key, whenever a tensor of the state dict
    differs in shape from the parameter of that name; it succeeds, and then
    leaves the model with exactly the state dict's tensors, when the state
    dict has exactly the model's parameter names and, name by name, the
    model's shapes, and only then; and the state dict of a
    [Network(784, 10, [512, 256, 128])] loaded into a
    [Network(784, 10, [400, 200, 100])] raises the [RuntimeError] with the
    seven lines that cell 10 shows. *)
Theorem load_state_dict_shapes (m : Network) (sd : gmap string tensor) :
  (∀ k t param,
     sd !! k = Some t → state_dict m !! k = Some param →
     shape t ≠ shape param →
     ∃ msgs, (load_state_dict m sd).2 = inl (RuntimeError msgs) ∧
       size_mismatch k (shape t) (shape param) ∈ msgs) ∧
  (dom sd = dom (state_dict m) →
   (∀ k t param,
      sd !! k = Some t → state_dict m !! k = Some param →
      shape t = shape param) →
   (load_state_dict m sd).2 = inr () ∧
   state_dict (load_state_dict m sd).1 = sd) ∧
  ((load_state_dict m sd).2 = inr () →
   dom sd = dom (state_dict m) ∧
   ∀ k t param,
     sd !! k = Some t → state_dict m !! k = Some param →
     shape t = shape param) ∧
  (∀ m1 m2,
     is_Network 784 10 [512; 256; 128] m1 →
     is_Network 784 10 [400; 200; 100] m2 →
     (load_state_dict m2 (state_dict m1)).2
     = inl (RuntimeError
         [size_mismatch "hidden_layers.0.weight" [512; 784] [400; 784];
          size_mismatch "hidden_layers.0.bias" [512] [400];
          size_mismatch "hidden_layers.1.weight" [256; 512] [200; 400];
          size_mismatch "hidden_layers.1.bias" [256] [200];
          size_mismatch "hidden_layers.2.weight" [128; 256] [100; 200];
          size_mismatch "hidden_layers.2.bias" [128] [100];
          size_mismatch "output.weight" [10; 128] [10; 100]])).
Proof.
  assert (∀ k t param,
     sd !! k = Some t → state_dict m !! k = Some param →
     shape t ≠ shape param →
     ∃ msgs, (load_state_dict m sd).2 = inl (RuntimeError msgs) ∧
       size_mismatch k (shape t) (shape param) ∈ msgs) as Hraise.
  { intros k t param Hk Hm Hs. apply state_dict_lookup in Hm.
    unfold named_parameters in Hm. apply elem_of_app in Hm.
    pose proof (load_hidden_mismatch 0 (hidden_layers m) sd k param t) as H1.
    pose proof (load_linear_mismatch "output." (output m) sd k param t) as H2.
    unfold load_state_dict.
    destruct (load_hidden 0 _ sd) as [[hs e1] m1], (load_linear _ _ sd) as [[out e2] m2].
    simpl in *.
    assert (size_mismatch k (shape t) (shape param) ∈ e1 ++ e2) as Hin.
    { rewrite elem_of_app. destruct Hm; auto. }
    eexists; split;
      [eapply (raise_if_nonempty _ (size_mismatch k (shape t) (shape param)))|];
      rewrite !elem_of_app; destruct Hm; auto. }
  split_and!; [exact Hraise|..].
  - intros Hdom Hshape.
    assert (∀ k param, (k, param) ∈ named_parameters m →
      ∃ t, sd !! k = Some t ∧ shape t = shape param) as Hall.
    { intros k param Hin%state_dict_lookup.
      assert (is_Some (sd !! k)) as [t Ht].
      { apply elem_of_dom. rewrite Hdom. by apply elem_of_dom. }
      eauto. }
    destruct (load_hidden_agree 0 (hidden_layers m) sd) as (hs & Hhs & Hlen & Hfound).
    { intros k param Hin. apply Hall, elem_of_app. by left. }
    destruct (load_linear_agree "output." (output m) sd) as (out & Hout & Hfound').
    { intros k param Hin. apply Hall, elem_of_app. by right. }
    unfold load_state_dict. rewrite Hhs, Hout, Hdom, difference_diag_L, elements_empty.
    simpl. split; [done|].
    set (m' := MkNetwork hs out (dropout m)).
    assert (dom (state_dict m') = dom sd) as Hdom'.
    { rewrite Hdom. by apply state_dict_dom. }
    apply map_eq. intros k. destruct (state_dict m' !! k) as [t|] eqn:Hk.
    + apply state_dict_lookup in Hk. unfold named_parameters in Hk. simpl in Hk.
      apply elem_of_app in Hk as [?|?]; symmetry; eauto.
    + apply not_elem_of_dom in Hk. rewrite Hdom' in Hk.
      by apply not_elem_of_dom in Hk.
  - intros Hok. destruct (load_state_dict m sd) as [m' [e|[]]] eqn:Hload; [done|].
    apply load_state_dict_success in Hload as Hm'. destruct Hm' as (Hsd & Hsh & _).
    split.
    + rewrite <-Hsd. apply state_dict_dom.
      by rewrite <-(length_fmap layer_shapes), Hsh, length_fmap.
    + intros k t param Hk Hm.
      destruct (decide (shape t = shape param)) as [|Hne]; [done|].
      by destruct (Hraise k t param Hk Hm Hne) as (msgs & Hmsgs & _).
  - intros [hs1 out1 d1] [hs2 out2 d2] [Hh1 Ho1] [Hh2 Ho2]. simpl in *.
    destruct hs1 as [|[??[??][??]] [|[??[??][??]] [|[??[??][??]] [|]]]]; try discriminate Hh1.
    destruct hs2 as [|[??[??][??]] [|[??[??][??]] [|[??[??][??]] [|]]]]; try discriminate Hh2.
    destruct out1 as [??[??][??]], out2 as [??[??][??]].
    unfold layer_shapes, arch in *. simpl in *. simplify_eq. by vm_compute.
Qed.

End Part6.

(** ** Concrete runs of Part 6 *)

(** The keys read for a checkpoint of [net_3_4_10]. *)
Lemma checkpoint_keys_agree_witness :
  hidden_layers net_3_4_10 ≠ [] ∧
  reads (save_then_load zeros_init net_3_4_10 empty_world).2
    = [] ++ checkpoint_keys ∧
  list_to_set checkpoint_keys =@{gset string} dom (checkpoint net_3_4_10).
Proof.
  split; [discriminate|].
  apply (checkpoint_keys_agree zeros_init net_3_4_10 empty_world). discriminate.
Defined.

(** C2 as stated fails: the checkpoint of cell 11 records [input_size] 784
    whatever the model, so a [Network(3, 10, [4])] is rebuilt with 784
    inputs and [load_state_dict] raises. *)
Lemma round_trip_fails_for_other_input_size :
  is_Network 3 10 [4] net_3_4_10 ∧
  (save_then_load zeros_init net_3_4_10 empty_world).1
    = inl (RuntimeError
        [size_mismatch "hidden_layers.0.weight" [4; 3] [4; 784]]) ∧
  ¬ round_trip zeros_init net_3_4_10.
Proof.
  assert ((save_then_load zeros_init net_3_4_10 empty_world).1
    = inl (RuntimeError
        [size_mismatch "hidden_layers.0.weight" [4; 3] [4; 784]])) as Hrun.
  { by vm_compute. }
  split_and!; [by split|done|].
  intros Hrt. destruct (Hrt empty_world) as (m' & w' & Heq & _).
  by rewrite Heq in Hrun.
Qed.

(** The round trip of [net_784_2_10]. *)
Lemma save_load_round_trip_784_10_witness :
  is_Network 784 10 [2] net_784_2_10 ∧
  round_trip zeros_init net_784_2_10 ∧
  ∀ w, ∃ w',
    save_then_load zeros_init net_784_2_10 w
    = (inr (MkNetwork (hidden_layers net_784_2_10) (output net_784_2_10)
              (MkDropout (1 / 2))), w').
Proof.
  split; [by split|].
  apply (save_load_round_trip_784_10 zeros_init net_784_2_10 [2]). by split.
Defined.

(** C3 as stated fails: matching shapes are not enough.  A state dict that
    lacks [output.bias], and one that holds a further tensor, agree in
    shape with every parameter of [net_3_4_10] they name, and
    [load_state_dict] raises [RuntimeError] for both. *)
Lemma load_state_dict_needs_the_same_keys :
  (∀ k t param,
     sd_without_output_bias !! k = Some t →
     state_dict net_3_4_10 !! k = Some param →
     shape t = shape param) ∧
  (load_state_dict net_3_4_10 sd_without_output_bias).2
  = inl (RuntimeError [missing_keys ["output.bias"]]) ∧
  (∀ k t param,
     sd_with_one_more !! k = Some t →
     state_dict net_3_4_10 !! k = Some param →
     shape t = shape param) ∧
  (load_state_dict net_3_4_10 sd_with_one_more).2
  = inl (RuntimeError [unexpected_keys ["epoch"]]) ∧
  ¬ loads_when_shapes_match net_3_4_10 sd_without_output_bias ∧
  ¬ loads_when_shapes_match net_3_4_10 sd_with_one_more.
Proof.
  assert (∀ sd : gmap string tensor,
    (∀ k t, sd !! k = Some t → k ≠ "epoch" → sd_same_shapes !! k = Some t) →
    ∀ k t param,
      sd !! k = Some t → state_dict net_3_4_10 !! k = Some param →
      shape t = shape param) as Hshapes.
  { intros sd Hsub k t param Hk Hm.
    assert (k ≠ "epoch") as Hne by (by intros ->).
    apply Hsub in Hk; [|done]. apply state_dict_lookup in Hm.
    apply list_elem_of_In in Hm. simpl in Hm.
    destruct Hm as [[= <- <-]|[[= <- <-]|[[= <- <-]|[[= <- <-]|[]]]]];
      by injection Hk as <-. }
  assert (∀ k t param,
     sd_without_output_bias !! k = Some t →
     state_dict net_3_4_10 !! k = Some param →
     shape t = shape param) as H1.
  { apply Hshapes. intros k t Hk _. unfold sd_without_output_bias in Hk.
    by apply lookup_delete_Some in Hk as [_ ?]. }
  assert (∀ k t param,
     sd_with_one_more !! k = Some t →
     state_dict net_3_4_10 !! k = Some param →
     shape t = shape param) as H2.
  { apply Hshapes. intros k t Hk Hne. unfold sd_with_one_more in Hk.
    by apply lookup_insert_Some in Hk as [[? _]|[_ ?]]. }
  assert ((load_state_dict net_3_4_10 sd_without_output_bias).2
          = inl (RuntimeError [missing_keys ["output.bias"]])) as E1.
  { by vm_compute. }
  assert ((load_state_dict net_3_4_10 sd_with_one_more).2
          = inl (RuntimeError [unexpected_keys ["epoch"]])) as E2.
  { by vm_compute. }
  split_and!; [done..| |].
  - intros Hload. specialize (Hload H1). by rewrite E1 in Hload.
  - intros Hload. specialize (Hload H2). by rewrite E2 in Hload.
Qed.

(** [net_3_4_10] rejects a state dict with a short [output.bias] and takes
    over one with its own keys and shapes. *)
Lemma load_state_dict_shapes_witness :
  (∃ msgs,
     (load_state_dict net_3_4_10 sd_short_bias).2 = inl (RuntimeError msgs) ∧
     size_mismatch "output.bias" [3] [10] ∈ msgs) ∧
  (load_state_dict net_3_4_10 sd_same_shapes).2 = inr () ∧
  state_dict (load_state_dict net_3_4_10 sd_same_shapes).1 = sd_same_shapes.
Proof.
  split.
  - destruct (load_state_dict_shapes net_3_4_10 sd_short_bias) as (Hraise & _ & _).
    apply (Hraise "output.bias" (Tensor [3] (repeat 6%R 3))
             (Tensor [10] (repeat 4%R 10))); [done|done|discriminate].
  - destruct (load_state_dict_shapes net_3_4_10 sd_same_shapes) as (_ & Hok & _).
    apply Hok; [done|].
    intros k t param Hk Hm. apply state_dict_lookup in Hm.
    apply list_elem_of_In in Hm.
    change (named_parameters net_3_4_10) with
      [("hidden_layers.0.weight", Tensor [4; 3] (repeat 1%R 12));
       ("hidden_layers.0.bias", Tensor [4] (repeat 2%R 4));
       ("output.weight", Tensor [10; 4] (repeat 3%R 40));
       ("output.bias", Tensor [10] (repeat 4%R 10))] in Hm.
    simpl in Hm.
    destruct Hm as [[= <- <-]|[[= <- <-]|[[= <- <-]|[[= <- <-]|[]]]]];
      by injection Hk as <-.
Defined.

Local Open Scope R_scope.

(** ** The training loop never accumulates gradients *)

Lemma zip_with_zeros {A} (xs : list A) (ys : list R) :
  length xs = length ys → zip_with Rplus ((λ _, 0) <$> xs) ys = ys.
Proof.
  revert ys. induction xs as [|a xs IH]; intros [|b ys] [=]; [done|].
  simpl. rewrite IH by done. f_equal. lra.
Qed.

Lemma accumulate_zeroed (old : option tensor) (g : tensor) :
  (∀ o, old = Some o → same_size o g) →
  accumulate (zero_ <$> old) g = Some g.
Proof.
  destruct old as [o|]; [|done]. intros Hs. destruct (Hs o eq_refl) as [Hsh Hlen].
  simpl. unfold tensor_add, zero_. simpl. rewrite zip_with_zeros by done.
  rewrite Hsh. by destruct g.
Qed.

Lemma same_size_trans a b c : same_size a b → same_size a c → same_size b c.
Proof. unfold same_size. intros [-> ->] [-> ->]. done. Qed.

Section TrainingProofs.

Context {batch : Type}.
Variable loss_of : list tensor → batch → R.
Variable autograd : list tensor → batch → list tensor.

Lemma zero_grad_values ps : value <$> zero_grad ps = value <$> ps.
Proof. unfold zero_grad. rewrite <-list_fmap_compose. done. Qed.

(** What one pass does to the parameters when the backward pass delivers
    the gradients [G]. *)
Lemma pass_params lr (ps : list Param) (G : list tensor) :
  Forall2 same_size (value <$> ps) G → Forall grad_sized ps →
  let ps1 := store_grads (zero_grad ps) G in
  grad <$> ps1 = Some <$> G ∧
  value <$> sgd_step lr ps1 = zip_with (add_scaled (- lr)) (value <$> ps) G ∧
  Forall grad_sized (sgd_step lr ps1).
Proof.
  revert G. induction ps as [|q ps IH]; intros G HG Hps.
  { apply Forall2_nil_inv_l in HG as ->. by split_and!. }
  rewrite fmap_cons in HG. apply Forall2_cons_inv_l in HG as (g & G' & Hg & HG & ->).
  apply Forall_cons in Hps as [Hq Hps].
  destruct (IH G' HG Hps) as (IH1 & IH2 & IH3). simpl in *.
  rewrite accumulate_zeroed by (intros o Ho; eapply same_size_trans; eauto).
  simpl. split_and!; [by f_equal|by f_equal|].
  apply Forall_cons; split; [|done].
  intros g' [= <-]. destruct Hg as [Hsh Hlen]. split; [done|]. simpl.
  rewrite length_zip_with. lia.
Qed.

Hypothesis autograd_sized : ∀ θ b, Forall2 same_size θ (autograd θ b).

Lemma training_pass_spec lr (s : trainer batch) (b : batch) :
  Forall grad_sized (params s) →
  let s' := training_pass loss_of autograd lr s b in
  value <$> params s' = sgd_update autograd lr (value <$> params s) b ∧
  calls s' = calls s ++ pass_calls autograd (value <$> params s, b) ∧
  printed s' = printed s ∧
  Forall grad_sized (params s').
Proof.
  intros Hps.
  destruct (pass_params lr (params s) (autograd (value <$> params s) b))
    as (H1 & H2 & H3); [done..|].
  unfold training_pass, loss_backward, forward_loss, pass_calls, sgd_update.
  simpl. rewrite !zero_grad_values. simpl in *. by rewrite H1, H2.
Qed.

Lemma inner_loop_spec lr (bs : list batch) (s : trainer batch) :
  Forall grad_sized (params s) →
  let s' := foldl (training_pass loss_of autograd lr) s bs in
  value <$> params s' = foldl (sgd_update autograd lr) (value <$> params s) bs ∧
  calls s' = calls s
    ++ mjoin (pass_calls autograd <$> trajectory autograd lr (value <$> params s) bs) ∧
  printed s' = printed s ∧
  Forall grad_sized (params s').
Proof.
  revert s. induction bs as [|b bs IH]; intros s Hps; simpl.
  { split_and!; [done| |done..]. by rewrite app_nil_r. }
  destruct (training_pass_spec lr s b Hps) as (H1 & H2 & H3 & H4).
  destruct (IH _ H4) as (IH1 & IH2 & IH3 & IH4).
  rewrite IH1, IH2, IH3, H1, H2, H3. split_and!; [done| |done..].
  by rewrite <-(assoc_L (++)).
Qed.

Lemma trajectory_app lr θ (bs1 bs2 : list batch) :
  trajectory autograd lr θ (bs1 ++ bs2)
  = trajectory autograd lr θ bs1
    ++ trajectory autograd lr (foldl (sgd_update autograd lr) θ bs1) bs2.
Proof.
  revert θ. induction bs1 as [|b bs1 IH]; intros θ; [done|].
  simpl. by rewrite IH.
Qed.

Lemma epochs_from_spec lr (trainloader : nat → list batch) n e (s : trainer batch) :
  Forall grad_sized (params s) →
  (∀ e', (e ≤ e' < e + n)%nat → trainloader e' ≠ []) →
  ∃ s', epochs_from loss_of autograd lr trainloader e n s = inr s' ∧
    calls s' = calls s
      ++ mjoin (pass_calls autograd <$>
           trajectory autograd lr (value <$> params s)
             (batches_from trainloader e n)) ∧
    value <$> params s'
    = foldl (sgd_update autograd lr) (value <$> params s)
        (batches_from trainloader e n).
Proof.
  revert e s. induction n as [|n IH]; intros e s Hps Hne.
  { exists s. unfold batches_from. simpl. by rewrite app_nil_r. }
  simpl. unfold epoch.
  set (s0 := Trainer (params s) 0 (printed s) (calls s)).
  destruct (inner_loop_spec lr (trainloader e) s0 Hps) as (H1 & H2 & H3 & H4).
  destruct (trainloader e) as [|b bs] eqn:Hbs; [by destruct (Hne e); [lia|]|].
  rewrite <-Hbs in *.
  edestruct (IH (S e)) as (s' & -> & Hc & Hv); [exact H4|intros; apply Hne; lia|].
  exists s'. split; [done|]. simpl in Hc, Hv. rewrite Hc, Hv, H1, H2. simpl.
  unfold batches_from. simpl. fold (batches_from trainloader (S e) n).
  rewrite trajectory_app, fmap_app, join_app, foldl_app.
  by rewrite <-(assoc_L (++)).
Qed.

(** Without [zero_grad] a second backward pass adds to the first: this is
    the accumulation the loop avoids. *)
Lemma backward_twice_accumulates (loss : loss_tensor) (q : Param) (g : tensor) :
  grad q = None →
  autograd (graph loss).1 (graph loss).2 = [g] →
  grad <$> loss_backward autograd loss (loss_backward autograd loss [q])
  = [Some (tensor_add g g)].
Proof. intros Hq Hg. unfold loss_backward. rewrite Hg. simpl. by rewrite Hq. Qed.

(** C8. Every pass of the training loop of cell 36 calls
    [optimizer.zero_grad()] before [loss.backward()], and the gradients that
    [optimizer.step()] consumes are those of the loss of the current batch
    at the current parameter values, whatever gradients the parameters held
    before the loop: over the five epochs the log of calls and the final
    values are those of plain gradient descent batch by batch.  The single
    step of cells 28 and 29 likewise finds the gradients of its own batch
    only, not those that cell 25 left behind.  This holds
    when the backward pass returns one gradient of each parameter's size,
    gradients left over have their parameter's size, and every epoch has a
    batch (with none, averaging the loss raises [ZeroDivisionError]). *)
Theorem training_loop_never_accumulates
    (trainloader : nat → list batch) (s : trainer batch) :
  Forall grad_sized (params s) →
  (∀ e, (e < 5)%nat → trainloader e ≠ []) →
  (∃ s', train loss_of autograd trainloader s = inr s' ∧
     calls s' = calls s
       ++ mjoin (pass_calls autograd <$>
            trajectory autograd (3 / 1000) (value <$> params s)
              (batches_from trainloader 0 5)) ∧
     value <$> params s'
     = foldl (sgd_update autograd (3 / 1000)) (value <$> params s)
         (batches_from trainloader 0 5)) ∧
  (∀ b,
     grad <$> (cell_28 loss_of autograd (params s) b).1
     = Some <$> autograd (value <$> params s) b ∧
     value <$> cell_29 (cell_28 loss_of autograd (params s) b).1
     = sgd_update autograd (1 / 100) (value <$> params s) b).
Proof.
  intros Hps Hne. split.
  - apply epochs_from_spec; [done|]. intros e' ?. apply Hne. lia.
  - intros b.
    destruct (pass_params (1 / 100) (params s) (autograd (value <$> params s) b))
      as (H1 & H2 & _); [done..|].
    unfold cell_28, cell_29, loss_backward, forward_loss, sgd_update. simpl.
    by rewrite !zero_grad_values.
Qed.

End TrainingProofs.

(** Five epochs of one batch each from [stale_trainer]. *)
Lemma training_loop_never_accumulates_witness :
  (∀ θ b, Forall2 same_size θ (squares_grad θ b)) ∧
  Forall grad_sized (params stale_trainer) ∧
  (∀ e, (e < 5)%nat → one_batch_loader e ≠ []) ∧
  (∃ s', train squares_loss squares_grad one_batch_loader stale_trainer = inr s' ∧
     calls s' = calls stale_trainer
       ++ mjoin (pass_calls squares_grad <$>
            trajectory squares_grad (3 / 1000) (value <$> params stale_trainer)
              (batches_from one_batch_loader 0 5)) ∧
     value <$> params s'
     = foldl (sgd_update squares_grad (3 / 1000))
         (value <$> params stale_trainer) (batches_from one_batch_loader 0 5)) ∧
  (∀ b,
     grad <$> (cell_28 squares_loss squares_grad (params stale_trainer) b).1
     = Some <$> squares_grad (value <$> params stale_trainer) b ∧
     value <$> cell_29 (cell_28 squares_loss squares_grad (params stale_trainer) b).1
     = sgd_update squares_grad (1 / 100) (value <$> params stale_trainer) b).
Proof.
  assert (∀ θ (b : nat), Forall2 same_size θ (squares_grad θ b)) as Hsized.
  { intros θ b. apply Forall_Forall2_diag, Forall_forall. by split. }
  assert (Forall grad_sized (params stale_trainer)) as Hstale.
  { apply Forall_singleton. by intros g [= <-]. }
  split; [done|]. split; [done|]. split; [discriminate|].
  by apply (training_loop_never_accumulates squares_loss squares_grad Hsized
              one_batch_loader stale_trainer).
Defined.

(** ** The models are feed-forward chains *)





(** [forward] does not look at the names of the children. *)
Lemma forward_layers model X :
  forward model X = foldl (λ X l, apply_layer l X) X model.*2.
Proof.
  unfold forward. revert X. induction model as [|child model IH]; intros X; [done|].
  simpl. apply IH.
Qed.

Lemma nn_Sequential_layers args : (nn_Sequential args).*2 = args.
Proof.
  unfold nn_Sequential. generalize (@pretty nat _).
  induction args as [|l args IH]; intros f; [done|].
  simpl. f_equal. apply (IH (f ∘ S)).
Qed.


Section ModelProofs.

Context {rng : Type} (init : rng → list nat → list R * rng).

#[local] Existing Instances M_ret M_bind.








End ModelProofs.



Local Close Scope R_scope.

(** * Further properties of Part 6 *)

Section MoreOfPart6Proofs.

Context {rng : Type} (init : rng → list nat → list R * rng).

#[local] Existing Instances M_ret M_bind.

Lemma bind_inl {A B} (c : M A) (k : A → M B) (w w' : @world rng) e :
  c w = (inl e, w') → (c ≫= k) w = (inl e, w').
Proof. intros H. unfold mbind, M_bind. by rewrite H. Qed.

Lemma bind_inv {A B} (c : M A) (k : A → M B) (w w' : @world rng) b :
  (c ≫= k) w = (inr b, w') →
  ∃ a w1, c w = (inr a, w1) ∧ k a w1 = (inr b, w').
Proof.
  unfold mbind, M_bind. destruct (c w) as [[e|a] w1]; [done|]. eauto.
Qed.

Lemma load_state_dict_same (m : Network) :
  load_state_dict m (state_dict m) = (m, inr ()).
Proof. rewrite load_state_dict_exact by done. by destruct m. Qed.

(** Saving the [state_dict] (cell 7), loading it back (cell 8) and handing
    it to the model it came from (cell 9) raises nothing and leaves every
    parameter of the model as it was. *)
Theorem cells_7_to_9_round_trip (model : Network) (w : @world rng) :
  cells_7_to_9 model w
  = (inr model,
     World (<["checkpoint.pth" := PyStateDict (state_dict model)]> (files w))
       (gen w) (reads w)).
Proof.
  unfold cells_7_to_9, save_state_dict.
  erewrite bind_inr by reflexivity.
  erewrite bind_inr by (unfold torch_load; simpl; by rewrite lookup_insert_eq).
  erewrite bind_inr by reflexivity.
  unfold do_load_state_dict. by rewrite load_state_dict_same.
Qed.

(** *** Errors of [load_checkpoint] *)

Lemma getitem_dict (d : gmap string pyobj) k (w : @world rng) :
  getitem (PyDict d) k w
  = (match d !! k with Some v => inr v | None => inl (KeyError k) end,
     World (files w) (gen w) (reads w ++ [k])).
Proof. unfold getitem. by destruct (d !! k). Qed.

Lemma as_ints_ints (ns : list nat) (w : @world rng) :
  as_ints (PyInt <$> ns) w = (inr ns, w).
Proof.
  induction ns as [|n ns IH]; [done|]. simpl.
  erewrite bind_inr by reflexivity. by erewrite bind_inr by apply IH.
Qed.

(** [load_checkpoint] raises [FileNotFoundError] when there is no file, and
    [KeyError] for the first of [input_size], [output_size],
    [hidden_layers] that the saved dictionary lacks, before any layer is
    created and whatever the other entries are.  [state_dict] is looked up
    only after the network has been built: a dictionary that lacks it
    raises [KeyError] for it when it holds two integers and a list of
    integers that is not empty, and with an empty list of hidden sizes the
    constructor raises [IndexError] first. *)
Theorem load_checkpoint_errors (path : string) (w : @world rng) :
  (files w !! path = None →
   load_checkpoint init path w = (inl (FileNotFoundError path), w)) ∧
  (∀ d, files w !! path = Some (PyDict d) →
     (d !! "input_size" = None →
      load_checkpoint init path w
      = (inl (KeyError "input_size"),
         World (files w) (gen w) (reads w ++ ["input_size"]))) ∧
     (is_Some (d !! "input_size") → d !! "output_size" = None →
      load_checkpoint init path w
      = (inl (KeyError "output_size"),
         World (files w) (gen w) (reads w ++ ["input_size"; "output_size"]))) ∧
     (is_Some (d !! "input_size") → is_Some (d !! "output_size") →
      d !! "hidden_layers" = None →
      load_checkpoint init path w
      = (inl (KeyError "hidden_layers"),
         World (files w) (gen w)
           (reads w ++ ["input_size"; "output_size"; "hidden_layers"]))) ∧
     (∀ i o hs h,
        d !! "input_size" = Some (PyInt i) →
        d !! "output_size" = Some (PyInt o) →
        d !! "hidden_layers" = Some (PyList (PyInt <$> hs)) →
        last hs = Some h →
        d !! "state_dict" = None →
        (load_checkpoint init path w).1 = inl (KeyError "state_dict")) ∧
     (∀ i o,
        d !! "input_size" = Some (PyInt i) →
        d !! "output_size" = Some (PyInt o) →
        d !! "hidden_layers" = Some (PyList []) →
        load_checkpoint init path w
        = (inl IndexError,
           World (files w) (gen w)
             (reads w ++ ["input_size"; "output_size"; "hidden_layers"])))).
Proof.
  split.
  { intros Hf. unfold load_checkpoint.
    apply bind_inl. unfold torch_load. by rewrite Hf. }
  intros d Hf.
  assert (torch_load path w = (inr (PyDict d), w)) as Hload.
  { unfold torch_load. by rewrite Hf. }
  unfold load_checkpoint. rewrite (bind_inr _ _ _ _ _ Hload). split_and!.
  - intros Hi. apply bind_inl. by rewrite getitem_dict, Hi.
  - intros [vi Hi] Ho.
    erewrite bind_inr by (by rewrite getitem_dict, Hi).
    apply bind_inl. rewrite getitem_dict, Ho. simpl.
    by rewrite <-(assoc_L (++)).
  - intros [vi Hi] [vo Ho] Hh.
    erewrite bind_inr by (by rewrite getitem_dict, Hi).
    erewrite bind_inr by (by rewrite getitem_dict, Ho).
    apply bind_inl. rewrite getitem_dict, Hh. simpl.
    by rewrite <-!(assoc_L (++)).
  - intros i o hs h Hi Ho Hh Hlast Hs.
    erewrite bind_inr by (by rewrite getitem_dict, Hi).
    erewrite bind_inr by (by rewrite getitem_dict, Ho).
    erewrite bind_inr by (by rewrite getitem_dict, Hh).
    erewrite bind_inr by reflexivity.
    erewrite bind_inr by reflexivity.
    erewrite bind_inr by apply as_ints_ints.
    match goal with |- context [mbind _ (mk_Network init i o hs) ?w0] =>
      destruct (mk_Network_spec init i o hs h w0 Hlast) as (m1 & w1 & Hm1 & _)
    end.
    erewrite bind_inr by exact Hm1.
    erewrite bind_inl; [done|]. by rewrite getitem_dict, Hs.
  - intros i o Hi Ho Hh.
    erewrite bind_inr by (by rewrite getitem_dict, Hi).
    erewrite bind_inr by (by rewrite getitem_dict, Ho).
    erewrite bind_inr by (by rewrite getitem_dict, Hh).
    erewrite bind_inr by reflexivity.
    erewrite bind_inr by reflexivity.
    erewrite bind_inr by reflexivity.
    erewrite bind_inl; [|reflexivity]. simpl. by rewrite <-!(assoc_L (++)).
Qed.

Lemma not_a_parameter_name (m : Network) (k : string) :
  (∀ j sfx, k ≠ hidden_prefix j +:+ sfx) → (∀ sfx, k ≠ "output." +:+ sfx) →
  state_dict m !! k = None.
Proof.
  intros Hh Ho. apply not_elem_of_list_to_map_1. unfold named_parameters.
  rewrite fmap_app, elem_of_app. intros [Hin|Hin].
  - apply hidden_keys_from in Hin as (j & sfx & _ & ->). by eapply Hh.
  - simpl in Hin. rewrite !elem_of_cons, elem_of_nil in Hin.
    destruct Hin as [->|[->|[]]]; by eapply Ho.
Qed.

(** The file that cell 7 writes is no checkpoint for [load_checkpoint]: it
    holds the bare [state_dict], none of whose keys is [input_size], and
    loading it raises [KeyError]. *)
Theorem cell_7_file_is_no_checkpoint (model : Network) (w : @world rng) :
  (cell_7_then_load_checkpoint init model w).1 = inl (KeyError "input_size").
Proof.
  unfold cell_7_then_load_checkpoint, save_state_dict, load_checkpoint.
  erewrite bind_inr by reflexivity.
  erewrite bind_inr by (unfold torch_load; simpl; by rewrite lookup_insert_eq).
  erewrite bind_inl; [done|]. unfold getitem.
  rewrite not_a_parameter_name; [done| |done].
  intros j sfx. rewrite hidden_key_eq. discriminate.
Qed.

(** *** What [load_checkpoint] touches *)

Lemma reads_in_order_bind {A B} (c : @M rng A) (k : A → @M rng B) ks1 ks2 :
  reads_in_order c ks1 → (∀ a, reads_in_order (k a) ks2) →
  reads_in_order (c ≫= k) (ks1 ++ ks2).
Proof.
  intros Hc Hk w. destruct (Hc w) as [Hf Hr].
  unfold mbind, M_bind. destruct (c w) as [[e|a] w1]; simpl in *.
  - split; [done|]. destruct Hr as [n ->].
    exists (n `min` length ks1). f_equal.
    rewrite take_app_le by lia. destruct (decide (n ≤ length ks1)).
    + by rewrite Nat.min_l.
    + rewrite Nat.min_r, !take_ge by lia. done.
  - destruct (Hk a w1) as [Hf' Hr']. split; [congruence|].
    destruct ((k a w1).1) as [e|b].
    + destruct Hr' as [n ->]. exists (length ks1 + n).
      by rewrite Hr, <-(assoc_L (++)), take_app_add.
    + by rewrite Hr', Hr, <-(assoc_L (++)).
Qed.

Lemma reads_in_order_quiet {A} (c : @M rng A) :
  (∀ w, (c w).2 = w) → reads_in_order c [].
Proof.
  intros Hc w. rewrite Hc. split; [done|].
  destruct ((c w).1); [exists 0|]; by rewrite app_nil_r.
Qed.

Lemma reads_in_order_getitem o k : reads_in_order (@getitem rng o k) [k].
Proof.
  intros w. unfold getitem.
  destruct o as [| | |sd|d]; simpl; try (split; [done|by exists 1]).
  - destruct (sd !! k); simpl; (split; [done|]); [done|by exists 1].
  - destruct (d !! k); simpl; (split; [done|]); [done|by exists 1].
Qed.

Lemma as_ints_world os (w : @world rng) : (as_ints os w).2 = w.
Proof.
  revert w. induction os as [|o os IH]; intros w; [done|]. simpl.
  unfold mbind, M_bind. destruct o; simpl; try done.
  specialize (IH w). by destruct (as_ints os w) as [[?|?] ?]; simpl in *.
Qed.

Lemma reads_in_order_mk_Network i o hs :
  reads_in_order (mk_Network init i o hs) [].
Proof.
  intros w. destruct (last hs) as [h|] eqn:Hlast.
  - destruct (mk_Network_spec init i o hs h w Hlast) as (m & w' & -> & Hf & Hr & _).
    simpl. by rewrite app_nil_r.
  - unfold mk_Network. rewrite Hlast. simpl. split; [done|].
    exists 0. by rewrite app_nil_r.
Qed.

(** [load_checkpoint] never changes a file, and the keys it looks up are
    [input_size], [output_size], [hidden_layers], [state_dict] in this
    order: all four when it returns a model, the first few when it
    raises. *)
Theorem load_checkpoint_reads_in_order (path : string) :
  reads_in_order (load_checkpoint init path) checkpoint_keys.
Proof.
  unfold load_checkpoint.
  apply (reads_in_order_bind _ _ [] checkpoint_keys).
  { apply reads_in_order_quiet. intros w. unfold torch_load.
    by destruct (files w !! path). }
  intros ck.
  apply (reads_in_order_bind _ _ ["input_size"] ["output_size"; "hidden_layers"; "state_dict"]);
    [apply reads_in_order_getitem|intros vi].
  apply (reads_in_order_bind _ _ ["output_size"] ["hidden_layers"; "state_dict"]);
    [apply reads_in_order_getitem|intros vo].
  apply (reads_in_order_bind _ _ ["hidden_layers"] ["state_dict"]);
    [apply reads_in_order_getitem|intros vh].
  apply (reads_in_order_bind _ _ [] ["state_dict"]).
  { apply reads_in_order_quiet. intros w. by destruct vi. }
  intros i.
  apply (reads_in_order_bind _ _ [] ["state_dict"]).
  { apply reads_in_order_quiet. intros w. by destruct vo. }
  intros o.
  apply (reads_in_order_bind _ _ [] ["state_dict"]).
  { apply reads_in_order_quiet. intros w. destruct vh; try done.
    apply as_ints_world. }
  intros hs.
  apply (reads_in_order_bind _ _ [] ["state_dict"]);
    [apply reads_in_order_mk_Network|intros m1].
  apply (reads_in_order_bind _ _ ["state_dict"] []);
    [apply reads_in_order_getitem|intros vs].
  apply (reads_in_order_bind _ _ [] []).
  { apply reads_in_order_quiet. intros w. destruct vs; try done.
    unfold as_state_dict. by case_decide. }
  intros sd. apply reads_in_order_quiet. intros w.
  apply do_load_state_dict_world.
Qed.

(** *** What the result of [load_checkpoint] depends on *)

Lemma same_outcome_bind {A B} (c1 c2 : @M rng A) (k1 k2 : A → @M rng B) w1 w2 :
  same_outcome (c1 w1) (c2 w2) →
  (∀ a w1' w2', gen w1' = gen w2' → same_outcome (k1 a w1') (k2 a w2')) →
  same_outcome ((c1 ≫= k1) w1) ((c2 ≫= k2) w2).
Proof.
  unfold same_outcome, mbind, M_bind. intros [Hr Hg] Hk.
  destruct (c1 w1) as [[e1|a1] w1'], (c2 w2) as [[e2|a2] w2'];
    simplify_eq/=; [done|]. by apply Hk.
Qed.

Lemma same_outcome_quiet {A} (c : @M rng A) (r : exn + A) w1 w2 :
  (∀ w, c w = (r, w)) → gen w1 = gen w2 → same_outcome (c w1) (c w2).
Proof. intros Hc Hg. by rewrite !Hc. Qed.

Lemma as_ints_result os : ∃ r, ∀ w : @world rng, as_ints os w = (r, w).
Proof.
  induction os as [|o os [r IH]]; [by eexists|]. simpl.
  destruct o; try (by eexists). unfold mbind, M_bind. simpl.
  setoid_rewrite IH. destruct r; by eexists.
Qed.

Lemma same_outcome_nn_Linear i o (w1 w2 : @world rng) :
  gen w1 = gen w2 → same_outcome (nn_Linear init i o w1) (nn_Linear init i o w2).
Proof.
  intros Hg. unfold same_outcome, nn_Linear, mbind, M_bind, mret, M_ret, fresh.
  rewrite Hg. destruct (init (gen w2) [o; i]) as [xs g]; simpl.
  by destruct (init g [o]) as [ys g'].
Qed.

Lemma same_outcome_linears sizes (w1 w2 : @world rng) :
  gen w1 = gen w2 →
  same_outcome (linears init sizes w1) (linears init sizes w2).
Proof.
  revert w1 w2. induction sizes as [|[i o] sizes IH]; intros w1 w2 Hg; [done|].
  simpl. apply same_outcome_bind; [by apply same_outcome_nn_Linear|].
  intros l w1' w2' Hg'. apply same_outcome_bind; [by apply IH|].
  by intros ls w1'' w2'' Hg''.
Qed.

Lemma same_outcome_mk_Network i o hs (w1 w2 : @world rng) :
  gen w1 = gen w2 →
  same_outcome (mk_Network init i o hs w1) (mk_Network init i o hs w2).
Proof.
  intros Hg. unfold mk_Network. destruct (last hs) as [h|]; [|done].
  apply same_outcome_bind; [by apply same_outcome_linears|].
  intros ls w1' w2' Hg'. apply same_outcome_bind; [by apply same_outcome_nn_Linear|].
  by intros l w1'' w2'' Hg''.
Qed.

(** [load_checkpoint] uses nothing of the saved dictionary but its four
    entries (and nothing of the state but the generator): two files whose
    dictionaries agree on [input_size], [output_size], [hidden_layers] and
    [state_dict] load alike, whatever other keys they hold. *)
Theorem load_checkpoint_ignores_other_keys
    (path1 path2 : string) (d1 d2 : gmap string pyobj) (w1 w2 : @world rng) :
  files w1 !! path1 = Some (PyDict d1) →
  files w2 !! path2 = Some (PyDict d2) →
  gen w1 = gen w2 →
  (∀ k, k ∈ checkpoint_keys → d1 !! k = d2 !! k) →
  same_outcome (load_checkpoint init path1 w1) (load_checkpoint init path2 w2).
Proof.
  intros Hf1 Hf2 Hg Hd.
  assert (∀ k (w1' w2' : @world rng), k ∈ checkpoint_keys → gen w1' = gen w2' →
    same_outcome (getitem (PyDict d1) k w1') (getitem (PyDict d2) k w2')) as Hget.
  { intros k w1' w2' Hk Hg'. rewrite !getitem_dict, (Hd k Hk). done. }
  unfold load_checkpoint.
  rewrite (bind_inr (torch_load path1) _ w1 w1 (PyDict d1))
    by (unfold torch_load; by rewrite Hf1).
  rewrite (bind_inr (torch_load path2) _ w2 w2 (PyDict d2))
    by (unfold torch_load; by rewrite Hf2).
  apply same_outcome_bind; [apply Hget; [set_solver|done]|intros vi ?? Hg1].
  apply same_outcome_bind; [apply Hget; [set_solver|done]|intros vo ?? Hg2].
  apply same_outcome_bind; [apply Hget; [set_solver|done]|intros vh ?? Hg3].
  apply same_outcome_bind.
  { destruct vi; by eapply same_outcome_quiet. }
  intros i ?? Hg4. apply same_outcome_bind.
  { destruct vo; by eapply same_outcome_quiet. }
  intros o ?? Hg5. apply same_outcome_bind.
  { destruct vh as [|os| | |]; try (by eapply same_outcome_quiet).
    destruct (as_ints_result os) as [r Hr]. by eapply same_outcome_quiet. }
  intros hs ?? Hg6.
  apply same_outcome_bind; [by apply same_outcome_mk_Network|intros m1 ?? Hg7].
  apply same_outcome_bind; [apply Hget; [set_solver|done]|intros vs ?? Hg8].
  apply same_outcome_bind.
  { destruct vs; try (by eapply same_outcome_quiet).
    unfold as_state_dict. case_decide; by eapply same_outcome_quiet. }
  intros sd ?? Hg9. unfold do_load_state_dict.
  destruct (load_state_dict m1 sd) as [? [?|?]]; by eapply same_outcome_quiet.
Qed.

(** *** What [load_checkpoint] returns *)

Lemma torch_load_inv path (w w' : @world rng) o :
  torch_load path w = (inr o, w') → files w !! path = Some o ∧ w' = w.
Proof. unfold torch_load. destruct (files w !! path); naive_solver. Qed.

Lemma as_ints_inv os ns (w w' : @world rng) :
  as_ints os w = (inr ns, w') → os = PyInt <$> ns.
Proof.
  revert ns w w'. induction os as [|o os IH]; intros ns w w'; simpl.
  { by intros [= <- _]. }
  intros (n & w1 & Hn & (ns' & w2 & Hns & [= <- _])%bind_inv)%bind_inv.
  destruct o; try done. injection Hn as -> _. simpl. f_equal. eauto.
Qed.

(** The run of [load_checkpoint] on a dictionary with the four entries,
    up to the call of [load_state_dict]. *)
Lemma as_state_dict_plain (sd : gmap string tensor) (w : @world rng) :
  as_state_dict (PyDict (PyTensor <$> sd)) w = (inr sd, w).
Proof.
  unfold as_state_dict. rewrite decide_True.
  - unfold mret, M_ret. do 2 f_equal. apply map_eq. intros k.
    rewrite lookup_omap, lookup_fmap. by destruct (sd !! k).
  - intros k v. rewrite lookup_fmap. intros (t & _ & ->)%fmap_Some. by eexists.
Qed.

Lemma as_state_dict_inv saved sd (w w' : @world rng) :
  as_state_dict saved w = (inr sd, w') →
  (saved = PyStateDict sd ∨ saved = PyDict (PyTensor <$> sd)) ∧ w' = w.
Proof.
  destruct saved as [| | |sd0|d]; try done.
  - intros [= -> ->]. split; [by left|done].
  - unfold as_state_dict. case_decide as Hall; [|done]. intros [= <- <-].
    split; [right|done]. f_equal. apply map_eq. intros k.
    rewrite lookup_fmap, lookup_omap. destruct (d !! k) as [v|] eqn:Hk; [|done].
    simpl. destruct (Hall k v Hk) as [t Ht]. by destruct v.
Qed.

Lemma as_state_dict_run saved sd (w : @world rng) :
  saved = PyStateDict sd ∨ saved = PyDict (PyTensor <$> sd) →
  as_state_dict saved w = (inr sd, w).
Proof. intros [->| ->]; [done|apply as_state_dict_plain]. Qed.

Lemma load_checkpoint_run path d i o hs h saved sd (w : @world rng) :
  files w !! path = Some (PyDict d) →
  d !! "input_size" = Some (PyInt i) →
  d !! "output_size" = Some (PyInt o) →
  d !! "hidden_layers" = Some (PyList (PyInt <$> hs)) →
  d !! "state_dict" = Some saved →
  saved = PyStateDict sd ∨ saved = PyDict (PyTensor <$> sd) →
  last hs = Some h →
  ∃ m1 w',
    load_checkpoint init path w = do_load_state_dict m1 sd w' ∧
    is_Network i o hs m1 ∧ dropout m1 = MkDropout (1 / 2) ∧
    files w' = files w.
Proof.
  intros Hf Hi Ho Hh Hs Hsaved Hlast. unfold load_checkpoint.
  erewrite bind_inr by (unfold torch_load; by rewrite Hf).
  erewrite bind_inr by (by rewrite getitem_dict, Hi).
  erewrite bind_inr by (by rewrite getitem_dict, Ho).
  erewrite bind_inr by (by rewrite getitem_dict, Hh).
  erewrite bind_inr by reflexivity.
  erewrite bind_inr by reflexivity.
  erewrite bind_inr by apply as_ints_ints.
  match goal with |- context [mbind _ (mk_Network init i o hs) ?w0] =>
    destruct (mk_Network_spec init i o hs h w0 Hlast)
      as (m1 & w1 & Hm1 & Hf1 & _ & Hnet & Hdrop)
  end.
  erewrite bind_inr by exact Hm1.
  erewrite bind_inr by (by rewrite getitem_dict, Hs).
  erewrite bind_inr by (by apply as_state_dict_run).
  by eexists _, _.
Qed.

(** When a checkpoint that holds integers under [input_size] and
    [output_size] and a list of integers under [hidden_layers] loads at
    all, the model returned has the architecture [Network(i, o, hs)] of
    those sizes and [Dropout(p=0.5)], and what was saved under
    [state_dict], the framework's container or a plain dictionary of
    tensors, is exactly the [state_dict] of that model: nothing of the
    random initialisation is left, and no file has changed. *)
Theorem load_checkpoint_sound (path : string) (d : gmap string pyobj)
    (i o : nat) (hs : list nat) (saved : pyobj)
    (w w' : @world rng) (m : Network) :
  files w !! path = Some (PyDict d) →
  d !! "input_size" = Some (PyInt i) →
  d !! "output_size" = Some (PyInt o) →
  d !! "hidden_layers" = Some (PyList (PyInt <$> hs)) →
  d !! "state_dict" = Some saved →
  load_checkpoint init path w = (inr m, w') →
  is_Network i o hs m ∧
  dropout m = MkDropout (1 / 2) ∧
  (saved = PyStateDict (state_dict m) ∨
   saved = PyDict (PyTensor <$> state_dict m)) ∧
  files w' = files w.
Proof.
  intros Hf Hi Ho Hh Hs Hrun.
  destruct (last hs) as [h|] eqn:Hlast.
  2:{ exfalso. revert Hrun. unfold load_checkpoint.
      erewrite bind_inr by (unfold torch_load; by rewrite Hf).
      erewrite bind_inr by (by rewrite getitem_dict, Hi).
      erewrite bind_inr by (by rewrite getitem_dict, Ho).
      erewrite bind_inr by (by rewrite getitem_dict, Hh).
      erewrite bind_inr by reflexivity.
      erewrite bind_inr by reflexivity.
      erewrite bind_inr by apply as_ints_ints.
      erewrite bind_inl; [done|]. unfold mk_Network. by rewrite Hlast. }
  revert Hrun. unfold load_checkpoint.
  erewrite bind_inr by (unfold torch_load; by rewrite Hf).
  erewrite bind_inr by (by rewrite getitem_dict, Hi).
  erewrite bind_inr by (by rewrite getitem_dict, Ho).
  erewrite bind_inr by (by rewrite getitem_dict, Hh).
  erewrite bind_inr by reflexivity.
  erewrite bind_inr by reflexivity.
  erewrite bind_inr by apply as_ints_ints.
  match goal with |- context [mbind _ (mk_Network init i o hs) ?w0] =>
    destruct (mk_Network_spec init i o hs h w0 Hlast)
      as (m1 & w1 & Hm1 & Hf1 & _ & [Hh1 Ho1] & Hd1)
  end.
  erewrite bind_inr by exact Hm1.
  erewrite bind_inr by (by rewrite getitem_dict, Hs).
  intros (sd & w2 & [Hsaved ->]%as_state_dict_inv & Hrun)%bind_inv.
  unfold do_load_state_dict in Hrun.
  destruct (load_state_dict m1 sd) as [m' [e|[]]] eqn:Hload; [done|].
  injection Hrun as -> <-.
  apply load_state_dict_success in Hload as (Hsd & Hsh & Hso & Hdr).
  rewrite Hlast in Ho1. subst sd. split_and!; [|congruence|done|done].
  split; [congruence|]. rewrite Hlast. congruence.
Qed.

(** A checkpoint that records the sizes of its model loads back for every
    [Network]: if the saved dictionary holds [i], [o], the hidden sizes and
    the [state_dict] of a model of architecture [Network(i, o, hs)] (and
    whatever else), [load_checkpoint] returns the layers of that model. *)
Theorem load_checkpoint_restores_any_architecture
    (path : string) (d : gmap string pyobj) (i o : nat) (hs : list nat)
    (model : Network) (w : @world rng) :
  files w !! path = Some (PyDict d) →
  d !! "input_size" = Some (PyInt i) →
  d !! "output_size" = Some (PyInt o) →
  d !! "hidden_layers" = Some (PyList (PyInt <$> hs)) →
  d !! "state_dict" = Some (PyStateDict (state_dict model)) →
  is_Network i o hs model →
  ∃ w',
    load_checkpoint init path w
    = (inr (MkNetwork (hidden_layers model) (output model) (MkDropout (1 / 2))), w')
    ∧ files w' = files w.
Proof.
  intros Hf Hi Ho Hh Hs [Hmh Hmo].
  destruct (last hs) as [h|] eqn:Hlast; [|done].
  destruct (load_checkpoint_run path d i o hs h _ (state_dict model) w
              Hf Hi Ho Hh Hs (or_introl eq_refl) Hlast)
    as (m1 & w' & -> & [Hh1 Ho1] & Hd1 & Hf').
  rewrite Hlast in Ho1. exists w'. split; [|done].
  unfold do_load_state_dict. rewrite load_state_dict_exact by congruence.
  by rewrite Hd1.
Qed.

End MoreOfPart6Proofs.

(** *** The result of [load_checkpoint] does not depend on the generator *)

Lemma load_param_alike key p1 p2 sd :
  shape p1 = shape p2 → loads_alike (load_param key p1 sd) (load_param key p2 sd).
Proof.
  intros Hs. unfold loads_alike, load_param. rewrite Hs.
  destruct (sd !! key) as [t|]; [|done]. by case_decide.
Qed.

Lemma load_linear_alike prefix l1 l2 sd :
  layer_shapes l1 = layer_shapes l2 →
  loads_alike (load_linear prefix l1 sd) (load_linear prefix l2 sd).
Proof.
  intros [= Hi Ho Hw Hb]. unfold load_linear.
  pose proof (load_param_alike (prefix +:+ "weight") _ _ sd Hw) as (He1 & Hm1 & Hv1).
  pose proof (load_param_alike (prefix +:+ "bias") _ _ sd Hb) as (He2 & Hm2 & Hv2).
  destruct (load_param _ (weight l1) sd) as [[wt1 e1] m1],
    (load_param _ (weight l2) sd) as [[wt2 e1'] m1'],
    (load_param _ (bias l1) sd) as [[b1 e2] m2],
    (load_param _ (bias l2) sd) as [[b2 e2'] m2'].
  unfold loads_alike. simpl in *. subst. split_and!; [done..|].
  intros [-> ->]%app_eq_nil [-> ->]%app_eq_nil.
  by rewrite Hi, Ho, Hv1, Hv2.
Qed.

Lemma load_hidden_alike i ls1 ls2 sd :
  layer_shapes <$> ls1 = layer_shapes <$> ls2 →
  loads_alike (load_hidden i ls1 sd) (load_hidden i ls2 sd).
Proof.
  revert i ls2. induction ls1 as [|l1 ls1 IH]; intros i [|l2 ls2] Hs;
    try discriminate Hs; [done|].
  rewrite !fmap_cons in Hs.
  assert (layer_shapes l1 = layer_shapes l2) as Hl by congruence.
  assert (layer_shapes <$> ls1 = layer_shapes <$> ls2) as Hls by congruence.
  clear Hs. simpl.
  pose proof (load_linear_alike (hidden_prefix i) l1 l2 sd Hl) as (He1 & Hm1 & Hv1).
  pose proof (IH (S i) ls2 Hls) as (He2 & Hm2 & Hv2).
  destruct (load_linear _ l1 sd) as [[l1' e1] m1],
    (load_linear _ l2 sd) as [[l2' e1'] m1'],
    (load_hidden _ ls1 sd) as [[ls1' e2] m2],
    (load_hidden _ ls2 sd) as [[ls2' e2'] m2'].
  unfold loads_alike. simpl in *. subst. split_and!; [done..|].
  intros [-> ->]%app_eq_nil [-> ->]%app_eq_nil. by rewrite Hv1, Hv2.
Qed.

(** [load_state_dict] on two models of one architecture: the same outcome,
    and on success the same model. *)
Lemma load_state_dict_alike m1 m2 sd :
  same_architecture m1 m2 →
  (load_state_dict m1 sd).2 = (load_state_dict m2 sd).2 ∧
  ((load_state_dict m1 sd).2 = inr () →
   (load_state_dict m1 sd).1 = (load_state_dict m2 sd).1).
Proof.
  intros (Hh & Ho & Hd). unfold load_state_dict.
  pose proof (load_hidden_alike 0 _ _ sd Hh) as (He1 & Hm1 & Hv1).
  pose proof (load_linear_alike "output." _ _ sd Ho) as (He2 & Hm2 & Hv2).
  rewrite (state_dict_dom m1 m2)
    by (by rewrite <-(length_fmap layer_shapes), Hh, length_fmap).
  destruct (load_hidden 0 (hidden_layers m1) sd) as [[hs1 e1] k1],
    (load_hidden 0 (hidden_layers m2) sd) as [[hs2 e1'] k1'],
    (load_linear _ (output m1) sd) as [[o1 e2] k2],
    (load_linear _ (output m2) sd) as [[o2 e2'] k2'].
  simpl in *. subst. split; [done|].
  destruct (k1' ++ k2') as [|??] eqn:Hk; [|done].
  destruct (elements _) as [|??]; [|done]. simpl.
  destruct (e1' ++ e2') as [|??] eqn:He; [|done]. intros _.
  apply app_eq_nil in Hk as [-> ->]. apply app_eq_nil in He as [-> ->].
  by rewrite Hv1, Hv2, Hd.
Qed.

Section ForgetsTheGenerator.

Context {rng1 rng2 : Type}.
Variable init1 : rng1 → list nat → list R * rng1.
Variable init2 : rng2 → list nat → list R * rng2.

#[local] Existing Instances M_ret M_bind.

Lemma related_bind {A1 A2 B : Type} (R : A1 → A2 → Prop)
    (c1 : @M rng1 A1) (c2 : @M rng2 A2)
    (k1 : A1 → @M rng1 B) (k2 : A2 → @M rng2 B) w1 w2 :
  related_runs R (c1 w1) (c2 w2) →
  (∀ a1 a2 w1' w2', R a1 a2 → related_runs eq (k1 a1 w1') (k2 a2 w2')) →
  related_runs eq ((c1 ≫= k1) w1) ((c2 ≫= k2) w2).
Proof.
  unfold related_runs, mbind, M_bind. intros Hc Hk.
  destruct (c1 w1) as [[e1|a1] w1'], (c2 w2) as [[e2|a2] w2']; simpl in *;
    [done..|]. by apply Hk.
Qed.

Lemma related_getitem o k (w1 : @world rng1) (w2 : @world rng2) :
  related_runs eq (getitem o k w1) (getitem o k w2).
Proof.
  unfold related_runs, getitem.
  destruct o as [| | |sd|d]; simpl; try done.
  - by destruct (sd !! k).
  - by destruct (d !! k).
Qed.

Lemma related_as_ints os (w1 : @world rng1) (w2 : @world rng2) :
  related_runs eq (as_ints os w1) (as_ints os w2).
Proof.
  revert w1 w2. induction os as [|o os IH]; intros w1 w2; [done|]. simpl.
  apply (related_bind eq); [by destruct o|]. intros n ? w1' w2' <-.
  apply (related_bind eq); [apply IH|]. by intros ns ? ?? <-.
Qed.

Lemma related_mk_Network i o hs (w1 : @world rng1) (w2 : @world rng2) :
  related_runs same_architecture
    (mk_Network init1 i o hs w1) (mk_Network init2 i o hs w2).
Proof.
  destruct (last hs) as [h|] eqn:Hlast.
  - destruct (mk_Network_spec init1 i o hs h w1 Hlast)
      as (m1 & w1' & -> & _ & _ & [Hh1 Ho1] & Hd1).
    destruct (mk_Network_spec init2 i o hs h w2 Hlast)
      as (m2 & w2' & -> & _ & _ & [Hh2 Ho2] & Hd2).
    rewrite Hlast in Ho1, Ho2. unfold related_runs. simpl.
    split_and!; congruence.
  - unfold mk_Network. by rewrite Hlast.
Qed.

Lemma related_do_load_state_dict m1 m2 sd (w1 : @world rng1) (w2 : @world rng2) :
  same_architecture m1 m2 →
  related_runs eq (do_load_state_dict m1 sd w1) (do_load_state_dict m2 sd w2).
Proof.
  intros Harch. destruct (load_state_dict_alike m1 m2 sd Harch) as [Hr Hm].
  unfold related_runs, do_load_state_dict.
  destruct (load_state_dict m1 sd) as [m1' [e1|[]]],
    (load_state_dict m2 sd) as [m2' [e2|[]]]; simpl in *; try done.
  - by injection Hr as ->.
  - by apply Hm.
Qed.

(** What [load_checkpoint] returns, a model or an exception, is decided by
    what the file holds: it is the same for every state of the random
    generator and for every generator, and the same whatever else is on
    disk.  The network is built with fresh random parameters, and a
    successful [load_state_dict] overwrites every one of them. *)
Theorem load_checkpoint_forgets_the_generator
    (path : string) (w1 : @world rng1) (w2 : @world rng2) :
  files w1 !! path = files w2 !! path →
  (load_checkpoint init1 path w1).1 = (load_checkpoint init2 path w2).1.
Proof.
  intros Hf.
  assert (related_runs eq (load_checkpoint init1 path w1)
            (load_checkpoint init2 path w2)) as Hrel.
  { unfold load_checkpoint.
    apply (related_bind eq).
    { unfold related_runs, torch_load. rewrite Hf.
      by destruct (files w2 !! path). }
    intros ck ? ?? <-.
    apply (related_bind eq); [apply related_getitem|intros vi ? ?? <-].
    apply (related_bind eq); [apply related_getitem|intros vo ? ?? <-].
    apply (related_bind eq); [apply related_getitem|intros vh ? ?? <-].
    apply (related_bind eq); [by destruct vi|intros i ? ?? <-].
    apply (related_bind eq); [by destruct vo|intros o ? ?? <-].
    apply (related_bind eq).
    { destruct vh; try done. apply related_as_ints. }
    intros hs ? ?? <-.
    apply (related_bind same_architecture); [apply related_mk_Network|].
    intros m1 m2 ?? Harch.
    apply (related_bind eq); [apply related_getitem|intros vs ? ?? <-].
    apply (related_bind eq).
    { destruct vs; try done. unfold as_state_dict. by case_decide. }
    intros sd ? ?? <-. by apply related_do_load_state_dict. }
  unfold related_runs in Hrel.
  destruct ((load_checkpoint init1 path w1).1), ((load_checkpoint init2 path w2).1);
    by subst.
Qed.

End ForgetsTheGenerator.

(** *** Concrete runs *)

(** No file, a dictionary without [output_size], the sizes of
    [Network(3, 10, [4])] without a [state_dict], and sizes with no hidden
    layer. *)
Lemma load_checkpoint_errors_witness :
  files empty_world !! "checkpoint.pth" = None ∧
  load_checkpoint zeros_init "checkpoint.pth" empty_world
  = (inl (FileNotFoundError "checkpoint.pth"), empty_world) ∧
  load_checkpoint zeros_init "half.pth" world_half_checkpoint
  = (inl (KeyError "output_size"),
     World (files world_half_checkpoint) ()
       ([] ++ ["input_size"; "output_size"])) ∧
  (load_checkpoint zeros_init "sizes.pth" world_sizes_only).1
  = inl (KeyError "state_dict") ∧
  load_checkpoint zeros_init "flat.pth" world_no_hidden_layer
  = (inl IndexError,
     World (files world_no_hidden_layer) ()
       ([] ++ ["input_size"; "output_size"; "hidden_layers"])).
Proof.
  split; [done|].
  destruct (load_checkpoint_errors zeros_init "checkpoint.pth" empty_world)
    as [Hnone _].
  destruct (load_checkpoint_errors zeros_init "half.pth" world_half_checkpoint)
    as [_ Hhalf].
  destruct (load_checkpoint_errors zeros_init "sizes.pth" world_sizes_only)
    as [_ Hsizes].
  destruct (load_checkpoint_errors zeros_init "flat.pth" world_no_hidden_layer)
    as [_ Hflat].
  split; [by apply Hnone|].
  destruct (Hhalf {[ "input_size" := PyInt 3 ]} eq_refl) as (_ & Hout & _).
  destruct (Hsizes (delete "state_dict" checkpoint_3_4_10) eq_refl)
    as (_ & _ & _ & Hsd & _).
  destruct (Hflat (<["hidden_layers" := PyList []]> checkpoint_3_4_10) eq_refl)
    as (_ & _ & _ & _ & Hempty).
  split; [by apply Hout|].
  split; [by apply (Hsd 3 10 [4] 4)|].
  by apply (Hempty 3 10).
Defined.

(** The checkpoint with and without its fifth key. *)
Lemma load_checkpoint_ignores_other_keys_witness :
  same_outcome (load_checkpoint zeros_init "net.pth" world_3_4_10)
    (load_checkpoint zeros_init "plain.pth" world_3_4_10_plain).
Proof.
  apply (load_checkpoint_ignores_other_keys zeros_init "net.pth" "plain.pth"
           checkpoint_3_4_10 (delete "note" checkpoint_3_4_10));
    [done..|].
  intros k Hk. apply list_elem_of_In in Hk. simpl in Hk.
  by destruct Hk as [<-|[<-|[<-|[<-|[]]]]].
Defined.

(** The checkpoint of [net_3_4_10] that records the sizes 3 and 10. *)
Lemma load_checkpoint_restores_any_architecture_witness :
  ∃ w',
    load_checkpoint zeros_init "net.pth" world_3_4_10
    = (inr (MkNetwork (hidden_layers net_3_4_10) (output net_3_4_10)
              (MkDropout (1 / 2))), w')
    ∧ files w' = files world_3_4_10.
Proof.
  apply (load_checkpoint_restores_any_architecture zeros_init "net.pth"
           checkpoint_3_4_10 3 10 [4] net_3_4_10 world_3_4_10); done.
Defined.

(** A checkpoint whose [state_dict] entry is a plain dictionary of the
    tensors of [net_3_4_10]. *)
Lemma load_checkpoint_sound_witness :
  ∃ m w',
    load_checkpoint zeros_init "plain_dict.pth" world_plain_dict = (inr m, w') ∧
    is_Network 3 10 [4] m ∧
    dropout m = MkDropout (1 / 2) ∧
    (PyDict (PyTensor <$> state_dict net_3_4_10) = PyStateDict (state_dict m) ∨
     PyDict (PyTensor <$> state_dict net_3_4_10)
     = PyDict (PyTensor <$> state_dict m)) ∧
    files w' = files world_plain_dict.
Proof.
  destruct (load_checkpoint_run zeros_init "plain_dict.pth" checkpoint_plain_dict
              3 10 [4] 4 (PyDict (PyTensor <$> state_dict net_3_4_10))
              (state_dict net_3_4_10) world_plain_dict)
    as (m1 & w' & Hrun & [Hh Ho] & _); [done..|by right|done|].
  unfold do_load_state_dict in Hrun.
  rewrite (load_state_dict_exact m1 net_3_4_10) in Hrun by done.
  eexists _, w'. split; [exact Hrun|].
  exact (load_checkpoint_sound zeros_init "plain_dict.pth" checkpoint_plain_dict
           3 10 [4] (PyDict (PyTensor <$> state_dict net_3_4_10))
           world_plain_dict w' _ eq_refl eq_refl eq_refl eq_refl eq_refl Hrun).
Defined.

(** The checkpoint of [net_3_4_10] loaded with the generator of zeros and
    with the counting generator started at 7, other files being around. *)
Lemma load_checkpoint_forgets_the_generator_witness :
  files world_3_4_10 !! "net.pth" = files world_counting !! "net.pth" ∧
  (load_checkpoint zeros_init "net.pth" world_3_4_10).1
  = (load_checkpoint counting_init "net.pth" world_counting).1.
Proof.
  split; [done|].
  by apply (load_checkpoint_forgets_the_generator zeros_init counting_init
              "net.pth" world_3_4_10 world_counting).
Defined.

(** The [state_dict] of a model has one entry for each of its parameters,
    [weight] and [bias] of every hidden layer and of the output layer,
    under pairwise different names: none is lost or merged. *)
Theorem state_dict_entries (m : Network) :
  size (state_dict m) = 2 * length (hidden_layers m) + 2 ∧
  ∀ k t, state_dict m !! k = Some t ↔ (k, t) ∈ named_parameters m.
Proof.
  split; [|intros k t; symmetry; apply state_dict_lookup].
  unfold state_dict.
  rewrite <-(length_map_to_list (list_to_map (named_parameters m))).
  rewrite (Permutation_length (map_to_list_to_map _ (NoDup_named_parameters m))).
  unfold named_parameters. rewrite length_app. simpl.
  assert (∀ i ls, length (hidden_parameters i ls) = 2 * length ls) as ->; [|lia].
  intros i ls. revert i. induction ls as [|l ls IH]; intros i; [done|].
  simpl. rewrite IH. lia.
Qed.


Local Open Scope R_scope.

(** * Further properties of Part 3 *)

(** ** The gradient of cell 23 *)

Lemma zip_with_const_fmap {A} (f : R → A → R) (c : R) (g : A → A) (xs : list A) :
  zip_with f ((λ _, c) <$> (g <$> xs)) xs = (λ v, f c v) <$> xs.
Proof. induction xs as [|a xs IH]; [done|]. simpl. by f_equal. Qed.

(** For a tensor [x] of any shape with [n] entries, the [z.backward()] of
    cell 23 leaves [2 x / n] in [x.grad], the gradient of the mean of the
    squares; cell 23 prints [x.grad] and [x/2], and the two agree whenever
    [x] has four entries, as the 2 by 2 tensor of cell 18 has. *)
Theorem cell_23_gradient (x0 : tensor) :
  let s := cell_23 torch_backward (cells_18_to_22 x0) in
  grad (x s)
  = Some (Tensor (shape x0)
            ((λ v, 2 * v / INR (length (data x0))) <$> data x0)) ∧
  (length (data x0) = 4%nat →
   shown s = [None; Some (tensor_div x0 2); Some (tensor_div x0 2)]).
Proof.
  assert (torch_backward (MeanBackward1 (PowBackward0 (Leaf x0) 2)) [1]
          = (λ v, 2 * v / INR (length (data x0))) <$> data x0) as Hg.
  { simpl. rewrite length_fmap.
    rewrite (zip_with_const_fmap (λ g v, g * ((1 + 1) * (v * 1)))).
    apply list_fmap_ext. intros _ v _. unfold Rdiv. ring. }
  unfold cell_23, cells_18_to_22, backward. cbn [x z y shown grad value accumulate].
  rewrite Hg. split; [done|]. intros Hlen. unfold tensor_div. rewrite Hlen.
  assert ((λ v, 2 * v / INR 4) <$> data x0 = (λ v, v / 2) <$> data x0) as ->; [|done].
  apply list_fmap_ext. intros _ v _. simpl. lra.
Qed.

(** The gradient and the printed values for a row of four entries. *)
Lemma cell_23_gradient_witness :
  length (data (Tensor [4%nat] [1; 2; 3; 4])) = 4%nat ∧
  shown (cell_23 torch_backward (cells_18_to_22 (Tensor [4%nat] [1; 2; 3; 4])))
  = [None; Some (tensor_div (Tensor [4%nat] [1; 2; 3; 4]) 2);
     Some (tensor_div (Tensor [4%nat] [1; 2; 3; 4]) 2)].
Proof.
  split; [done|].
  exact (proj2 (cell_23_gradient (Tensor [4%nat] [1; 2; 3; 4])) eq_refl).
Defined.

(** ** What the training loop prints *)

Section MoreTrainingProofs.

Context {batch : Type}.
Variable loss_of : list tensor → batch → R.
Variable autograd : list tensor → batch → list tensor.

Lemma training_pass_counts lr (s : trainer batch) (b : batch) :
  let s' := training_pass loss_of autograd lr s b in
  running_loss s' = running_loss s + loss_of (value <$> params s) b ∧
  printed s' = printed s ∧
  length (calls s') = (length (calls s) + 4)%nat.
Proof.
  unfold training_pass, forward_loss. simpl. rewrite zero_grad_values, length_app.
  simpl. split_and!; [done|done|lia].
Qed.

End MoreTrainingProofs.

Section MeansProofs.

Context {batch : Type}.
Variable loss_of : list tensor → batch → R.
Variable autograd : list tensor → batch → list tensor.

Hypothesis autograd_sized : ∀ θ b, Forall2 same_size θ (autograd θ b).

Lemma inner_loop_running_loss lr (bs : list batch) (s : trainer batch) :
  Forall grad_sized (params s) →
  running_loss (foldl (training_pass loss_of autograd lr) s bs)
  = running_loss s
    + sum_list ((λ θb, loss_of θb.1 θb.2)
                <$> trajectory autograd lr (value <$> params s) bs).
Proof.
  revert s. induction bs as [|b bs IH]; intros s Hps; simpl.
  { unfold sum_list. simpl. lra. }
  destruct (training_pass_spec loss_of autograd autograd_sized lr s b Hps)
    as (H1 & _ & _ & H4).
  destruct (training_pass_counts loss_of autograd lr s b) as (Hr & _).
  rewrite IH by done. rewrite H1, Hr. apply Rplus_assoc.
Qed.

Lemma sgd_update_sizes lr θ (b : batch) :
  tensor_sizes (sgd_update autograd lr θ b) = tensor_sizes θ.
Proof.
  unfold sgd_update. pose proof (autograd_sized θ b) as HG.
  induction HG as [|t g θ G [Hsh Hlen] _ IH]; [done|].
  unfold tensor_sizes in *. rewrite !fmap_cons. cbn [zip_with]. rewrite fmap_cons.
  f_equal; [|exact IH]. simpl. by rewrite length_zip_with, Hlen, Nat.min_id.
Qed.

Lemma foldl_sgd_update_sizes lr (bs : list batch) θ :
  tensor_sizes (foldl (sgd_update autograd lr) θ bs) = tensor_sizes θ.
Proof.
  revert θ. induction bs as [|b bs IH]; intros θ; [done|].
  simpl. by rewrite IH, sgd_update_sizes.
Qed.

Lemma epochs_from_printed lr (trainloader : nat → list batch) n e (s : trainer batch) :
  Forall grad_sized (params s) →
  (∀ e', (e ≤ e' < e + n)%nat → trainloader e' ≠ []) →
  ∃ s', epochs_from loss_of autograd lr trainloader e n s = inr s' ∧
    printed s' = printed s
      ++ epoch_means loss_of autograd lr trainloader e n (value <$> params s).
Proof.
  revert e s. induction n as [|n IH]; intros e s Hps Hne.
  { exists s. simpl. by rewrite app_nil_r. }
  simpl. unfold epoch.
  set (s0 := Trainer (params s) 0 (printed s) (calls s)).
  destruct (inner_loop_spec loss_of autograd autograd_sized lr (trainloader e) s0 Hps)
    as (H1 & _ & H3 & H4).
  pose proof (inner_loop_running_loss lr (trainloader e) s0 Hps) as Hr.
  destruct (trainloader e) as [|b bs] eqn:Hbs; [by destruct (Hne e); [lia|]|].
  rewrite <-Hbs in *.
  edestruct (IH (S e)) as (s' & -> & Hp); [exact H4|intros; apply Hne; lia|].
  exists s'. split; [done|]. simpl in Hp. rewrite Hp, H1, H3, Hr. simpl.
  rewrite <-(assoc_L (++)). simpl. unfold epoch_mean. by rewrite Rplus_0_l.
Qed.

(** Each of the five numbers that cell 36 prints is the mean over one
    epoch of the losses of its batches, each loss taken at the parameter
    values before that batch's step; [running_loss] starts from 0 in every
    epoch, so no number carries over from the epoch before. *)
Theorem train_prints_epoch_means
    (trainloader : nat → list batch) (s : trainer batch) :
  Forall grad_sized (params s) →
  (∀ e, (e < 5)%nat → trainloader e ≠ []) →
  ∃ s', train loss_of autograd trainloader s = inr s' ∧
    printed s' = printed s
      ++ epoch_means loss_of autograd (3 / 1000) trainloader 0 5
           (value <$> params s).
Proof.
  intros Hps Hne. apply epochs_from_printed; [done|].
  intros e' ?. apply Hne. lia.
Qed.

(** Training changes the entries of the parameters only: after the five
    epochs of cell 36 the model has as many parameters as before, each with
    its shape and its number of entries. *)
Theorem train_keeps_parameter_sizes
    (trainloader : nat → list batch) (s : trainer batch) :
  Forall grad_sized (params s) →
  (∀ e, (e < 5)%nat → trainloader e ≠ []) →
  ∃ s', train loss_of autograd trainloader s = inr s' ∧
    tensor_sizes (value <$> params s') = tensor_sizes (value <$> params s).
Proof.
  intros Hps Hne.
  destruct (epochs_from_spec loss_of autograd autograd_sized (3 / 1000)
              trainloader 5 0 s Hps) as (s' & Hrun & _ & Hv).
  { intros e' ?. apply Hne. lia. }
  exists s'. split; [done|]. rewrite Hv. apply foldl_sgd_update_sizes.
Qed.

End MeansProofs.

(** Five epochs of one batch each from [stale_trainer]. *)
Lemma train_prints_epoch_means_witness :
  (∀ θ b, Forall2 same_size θ (squares_grad θ b)) ∧
  Forall grad_sized (params stale_trainer) ∧
  (∀ e, (e < 5)%nat → one_batch_loader e ≠ []) ∧
  ∃ s', train squares_loss squares_grad one_batch_loader stale_trainer = inr s' ∧
    printed s' = printed stale_trainer
      ++ epoch_means squares_loss squares_grad (3 / 1000) one_batch_loader 0 5
           (value <$> params stale_trainer).
Proof.
  assert (∀ θ (b : nat), Forall2 same_size θ (squares_grad θ b)) as Hsized.
  { intros θ b. apply Forall_Forall2_diag, Forall_forall. by split. }
  assert (Forall grad_sized (params stale_trainer)) as Hstale.
  { apply Forall_singleton. by intros g [= <-]. }
  assert (∀ e, (e < 5)%nat → one_batch_loader e ≠ []) as Hne by discriminate.
  split; [done|]. split; [done|]. split; [done|].
  exact (train_prints_epoch_means squares_loss squares_grad Hsized
           one_batch_loader stale_trainer Hstale Hne).
Defined.

(** The same run keeps the one parameter of [stale_trainer] at its two
    entries. *)
Lemma train_keeps_parameter_sizes_witness :
  (∀ θ b, Forall2 same_size θ (squares_grad θ b)) ∧
  Forall grad_sized (params stale_trainer) ∧
  (∀ e, (e < 5)%nat → one_batch_loader e ≠ []) ∧
  ∃ s', train squares_loss squares_grad one_batch_loader stale_trainer = inr s' ∧
    tensor_sizes (value <$> params s')
    = tensor_sizes (value <$> params stale_trainer).
Proof.
  assert (∀ θ (b : nat), Forall2 same_size θ (squares_grad θ b)) as Hsized.
  { intros θ b. apply Forall_Forall2_diag, Forall_forall. by split. }
  assert (Forall grad_sized (params stale_trainer)) as Hstale.
  { apply Forall_singleton. by intros g [= <-]. }
  assert (∀ e, (e < 5)%nat → one_batch_loader e ≠ []) as Hne by discriminate.
  split; [done|]. split; [done|]. split; [done|].
  exact (train_keeps_parameter_sizes squares_loss squares_grad Hsized
           one_batch_loader stale_trainer Hstale Hne).
Defined.

(** ** What the models compute *)

Lemma sum_list_cons v xs : sum_list (v :: xs) = v + sum_list xs.
Proof. done. Qed.

Lemma sum_exp_nonneg row : 0 <= sum_list (exp <$> row).
Proof.
  induction row as [|v row IH]; [unfold sum_list; simpl; lra|].
  rewrite fmap_cons, sum_list_cons. pose proof (exp_pos v). lra.
Qed.

Lemma sum_exp_pos row : row ≠ [] → 0 < sum_list (exp <$> row).
Proof.
  destruct row as [|v row]; [done|]. intros _.
  rewrite fmap_cons, sum_list_cons.
  pose proof (exp_pos v). pose proof (sum_exp_nonneg row). lra.
Qed.

Lemma exp_le_sum v row : v ∈ row → exp v <= sum_list (exp <$> row).
Proof.
  induction row as [|u row IH]; [by intros ?%elem_of_nil|].
  rewrite fmap_cons, sum_list_cons. intros [->|Hin]%elem_of_cons.
  - pose proof (sum_exp_nonneg row). lra.
  - pose proof (exp_pos u). specialize (IH Hin). lra.
Qed.

Lemma sum_list_scale (f : R → R) a xs :
  sum_list ((λ v, f v * a) <$> xs) = sum_list (f <$> xs) * a.
Proof.
  induction xs as [|v xs IH]; [unfold sum_list; simpl; lra|].
  rewrite !fmap_cons, !sum_list_cons, IH. lra.
Qed.

Lemma exp_log_softmax row :
  row ≠ [] →
  exp <$> log_softmax row = (λ v, exp v * / sum_list (exp <$> row)) <$> row.
Proof.
  intros Hrow. unfold log_softmax. rewrite <-list_fmap_compose.
  apply list_fmap_ext. intros _ v _. simpl. unfold Rminus.
  by rewrite exp_plus, exp_Ropp, exp_ln by by apply sum_exp_pos.
Qed.

Lemma log_softmax_log_probabilities row :
  row ≠ [] → log_probabilities (log_softmax row).
Proof.
  intros Hrow. pose proof (sum_exp_pos row Hrow) as Hpos. split.
  - unfold log_softmax. apply Forall_fmap, Forall_forall. intros v Hv. simpl.
    pose proof (exp_le_sum v row Hv) as Hle.
    destruct (Rle_lt_dec v (ln (sum_list (exp <$> row)))) as [?|Hlt]; [lra|].
    apply exp_increasing in Hlt. rewrite exp_ln in Hlt by done. lra.
  - rewrite exp_log_softmax, (sum_list_scale exp) by done. apply Rinv_r. lra.
Qed.

Lemma softmax_exp_log_softmax row : softmax row = exp <$> log_softmax row.
Proof.
  destruct (decide (row = [])) as [->|Hrow]; [done|].
  by rewrite exp_log_softmax.
Qed.

Lemma softmax_log_softmax row : softmax (log_softmax row) = softmax row.
Proof.
  destruct (decide (row = [])) as [->|Hrow]; [done|].
  destruct (log_softmax_log_probabilities row Hrow) as [_ Hsum].
  rewrite (softmax_exp_log_softmax row). unfold softmax at 1. rewrite Hsum.
  apply list_fmap_ext. intros _ v _. lra.
Qed.

Lemma softmax_probabilities row : row ≠ [] → probabilities (softmax row).
Proof.
  intros Hrow. destruct (log_softmax_log_probabilities row Hrow) as [Hle Hsum].
  rewrite softmax_exp_log_softmax. split; [|done].
  apply Forall_fmap. eapply Forall_impl; [exact Hle|]. intros v Hv. simpl.
  split; [apply exp_pos|]. destruct Hv as [Hlt| ->]; [|rewrite exp_0; lra].
  apply exp_increasing in Hlt. rewrite exp_0 in Hlt. lra.
Qed.

Lemma nth_fmap_lt (f : R → R) (row : list R) (label : nat) (d d' : R) :
  (label < length row)%nat → nth label (f <$> row) d = f (nth label row d').
Proof.
  revert label. induction row as [|v row IH]; intros [|label] Hlt; simpl in *;
    [lia|lia|done|]. apply IH. lia.
Qed.

Lemma nll_log_softmax (Z : list (list R)) (labels : list nat) :
  Forall2 (λ row label, (label < length row)%nat) Z labels →
  nll_loss (log_softmax <$> Z) labels = cross_entropy_loss Z labels.
Proof.
  intros HZ. unfold nll_loss, cross_entropy_loss. rewrite length_fmap. f_equal.
  induction HZ as [|row label Z labels Hlt _ IH]; [done|].
  rewrite fmap_cons. cbn [zip_with]. rewrite !sum_list_cons, IH. f_equal.
  unfold log_softmax. rewrite (nth_fmap_lt _ row label 0 0) by done. lra.
Qed.

Lemma labels_in_range (n : nat) (Z : list (list R)) (labels : list nat) :
  Forall (λ row, length row = n) Z →
  length labels = length Z →
  Forall (λ label, (label < n)%nat) labels →
  Forall2 (λ row label, (label < length row)%nat) Z labels.
Proof.
  intros HZ. revert labels. induction HZ as [|row Z Hrow _ IH];
    intros [|label labels] Hlen Hlabels; simpl in *; try lia; [constructor|].
  apply Forall_cons in Hlabels as [? ?]. constructor; [lia|]. apply IH; [lia|done].
Qed.

Lemma length_rows n width xs : length (rows n width xs) = n.
Proof. revert xs. induction n as [|n IH]; intros xs; simpl; [done|]. by rewrite IH. Qed.

Lemma length_linear_forward i o l row :
  well_formed i o l → length (linear_forward l row) = o.
Proof.
  intros ([= _ Ho _ _] & _ & Hb). unfold linear_forward.
  rewrite length_zip_with, length_fmap, length_rows, Hb, Ho. apply Nat.min_id.
Qed.

Lemma well_formed_blank i o : well_formed i o (blank_Linear i o).
Proof. split_and!; [reflexivity|apply repeat_length|apply repeat_length]. Qed.

(** The rows that the five layers before the [LogSoftmax] give. *)
Lemma chain_rows i1 o1 i2 o2 i3 o3 l1 l2 l3 (X : list (list R)) :
  well_formed i1 o1 l1 → well_formed i2 o2 l2 → well_formed i3 o3 l3 →
  let Z := foldl (λ X l, apply_layer l X) X [Lin l1; ReLU; Lin l2; ReLU; Lin l3] in
  length Z = length X ∧ Forall (λ row, length row = o3) Z.
Proof.
  intros _ _ H3. simpl. rewrite !length_fmap. split; [done|].
  apply Forall_fmap, Forall_forall. intros row _. simpl.
  by apply (length_linear_forward i3).
Qed.

Section MoreModelProofs.

Context {rng : Type} (init : rng → list nat → list R * rng).

#[local] Existing Instances M_ret M_bind.

Hypothesis init_draws : init_sized init.

Lemma nn_Linear_well_formed i o (w : @world rng) :
  ∃ l w', nn_Linear init i o w = (inr l, w') ∧ well_formed i o l.
Proof.
  pose proof (init_draws (gen w) [o; i]) as Hw.
  unfold nn_Linear, mbind, M_bind, mret, M_ret, fresh.
  destruct (init (gen w) [o; i]) as [xs g]; simpl in *.
  pose proof (init_draws g [o]) as Hb.
  destruct (init g [o]) as [ys g']; simpl in *. eexists _, _. split; [done|].
  split_and!; simpl; [done|lia|lia].
Qed.

(** The three [nn.Linear] calls of a model of Part 3, whatever is built
    from the layers. *)
Lemma three_linears_well_formed (w : @world rng) :
  ∃ l1 l2 l3 w',
    (∀ k : Linear → Linear → Linear → list (string * layer),
       (l1 ← nn_Linear init 784 128;
        l2 ← nn_Linear init 128 64;
        l3 ← nn_Linear init 64 10;
        mret (k l1 l2 l3)) w = (inr (k l1 l2 l3), w')) ∧
    well_formed 784 128 l1 ∧ well_formed 128 64 l2 ∧ well_formed 64 10 l3.
Proof.
  destruct (nn_Linear_well_formed 784 128 w) as (l1 & w1 & H1 & Hs1).
  destruct (nn_Linear_well_formed 128 64 w1) as (l2 & w2 & H2 & Hs2).
  destruct (nn_Linear_well_formed 64 10 w2) as (l3 & w3 & H3 & Hs3).
  exists l1, l2, l3, w3. split; [|done]. intros k.
  by rewrite (bind_inr _ _ _ _ _ H1), (bind_inr _ _ _ _ _ H2), (bind_inr _ _ _ _ _ H3).
Qed.




(** From one state of the generator, cell 5 (scores and
    [nn.CrossEntropyLoss]) and cell 17 (a closing [LogSoftmax(dim=1)] and
    [nn.NLLLoss]) build the same three linear layers and compute the same
    loss on every batch of flattened images with labels from 0 to 9. *)
Theorem cell_5_and_cell_17_losses_agree (w : @world rng) :
  ∃ m5 m17 w',
    model_cell_5 init w = (inr m5, w') ∧
    model_cell_17 init w = (inr m17, w') ∧
    ∀ (images : list (list R)) (labels : list nat),
      Forall (λ row, length row = 784%nat) images →
      length labels = length images →
      Forall (λ label, (label < 10)%nat) labels →
      cell_17_loss m17 images labels = cell_5_loss m5 images labels.
Proof.
  destruct (three_linears_well_formed w) as (l1 & l2 & l3 & w' & Hrun & H1 & H2 & H3).
  eexists _, _, w'. split; [apply Hrun|]. split; [apply Hrun|].
  intros images labels Himages Hlen Hlabels.
  unfold cell_17_loss, cell_5_loss. rewrite !forward_layers, nn_Sequential_layers.
  change ([("f1", Lin l1); ("relu_first", ReLU); ("f2", Lin l2);
           ("relu_second", ReLU); ("output", Lin l3);
           ("log_softmax", LogSoftmax 1)]%string.*2)
    with ([Lin l1; ReLU; Lin l2; ReLU; Lin l3] ++ [LogSoftmax 1]).
  rewrite foldl_app.
  destruct (chain_rows _ _ _ _ _ _ l1 l2 l3 images H1 H2 H3) as [HlenZ HZ].
  cbn [foldl apply_layer] in *. apply nll_log_softmax.
  apply (labels_in_range 10); [done|congruence|done].
Qed.

End MoreModelProofs.

(** The model that cell 36 trains, with parameters of the sizes of its
    three linear layers whatever their entries have become, gives for the
    image of cell 41 one row [ps] of 10 probabilities.  The cell applies
    [F.softmax] to the output named [logits], which is already a row of
    log-probabilities; [ps] is the exponential of that output all the same,
    and it is the softmax of the scores of the last linear layer. *)
Theorem cell_41_probabilities (l1 l2 l3 : Linear) (img : list R) :
  well_formed 784 128 l1 → well_formed 128 64 l2 → well_formed 64 10 l3 →
  length img = 784%nat →
  let model := nn_Sequential [Lin l1; ReLU; Lin l2; ReLU; Lin l3; LogSoftmax 1] in
  cell_41 model img = fmap (M := list) exp <$> forward model [img] ∧
  cell_41 model img
  = softmax <$> forward (nn_Sequential [Lin l1; ReLU; Lin l2; ReLU; Lin l3]) [img] ∧
  ∃ ps, cell_41 model img = [ps] ∧ length ps = 10%nat ∧ probabilities ps.
Proof.
  intros H1 H2 H3 Himg model. unfold cell_41, model.
  rewrite !forward_layers, !nn_Sequential_layers.
  change [Lin l1; ReLU; Lin l2; ReLU; Lin l3; LogSoftmax 1]
    with ([Lin l1; ReLU; Lin l2; ReLU; Lin l3] ++ [LogSoftmax 1]).
  rewrite foldl_app.
  destruct (chain_rows _ _ _ _ _ _ l1 l2 l3 [img] H1 H2 H3) as [HlenZ HZ].
  destruct (foldl (λ X l, apply_layer l X) [img] [Lin l1; ReLU; Lin l2; ReLU; Lin l3])
    as [|scores [|? ?]]; [done| |done].
  apply Forall_cons in HZ as [HZ _]. cbn [foldl apply_layer fmap list_fmap].
  rewrite softmax_log_softmax. split_and!.
  - by rewrite softmax_exp_log_softmax.
  - done.
  - exists (softmax scores). split; [done|].
    split; [unfold softmax; by rewrite length_fmap|].
    apply softmax_probabilities. by destruct scores.
Qed.


(** The two losses on two blank images with the labels 3 and 7. *)
Lemma cell_5_and_cell_17_losses_agree_witness :
  init_sized zeros_init ∧
  Forall (λ row, length row = 784%nat) two_blank_images ∧
  length two_labels = length two_blank_images ∧
  Forall (λ label, (label < 10)%nat) two_labels ∧
  ∃ m5 m17 w',
    model_cell_5 zeros_init empty_world = (inr m5, w') ∧
    model_cell_17 zeros_init empty_world = (inr m17, w') ∧
    cell_17_loss m17 two_blank_images two_labels
    = cell_5_loss m5 two_blank_images two_labels.
Proof.
  assert (init_sized zeros_init) as Hinit by (intros g s; apply repeat_length).
  assert (Forall (λ row, length row = 784%nat) two_blank_images) as Himages.
  { repeat apply Forall_cons_2; [apply repeat_length..|apply Forall_nil_2]. }
  assert (Forall (λ label, (label < 10)%nat) two_labels) as Hlabels.
  { repeat apply Forall_cons_2; [lia..|apply Forall_nil_2]. }
  split; [done|]. split; [done|]. split; [done|]. split; [done|].
  destruct (cell_5_and_cell_17_losses_agree zeros_init Hinit empty_world)
    as (m5 & m17 & w' & H5 & H17 & Hloss).
  exists m5, m17, w'. split; [done|]. split; [done|].
  by apply Hloss.
Defined.

(** The probabilities of a blank image under layers of zeros. *)
Lemma cell_41_probabilities_witness :
  well_formed 784 128 (blank_Linear 784 128) ∧
  well_formed 128 64 (blank_Linear 128 64) ∧
  well_formed 64 10 (blank_Linear 64 10) ∧
  length (repeat 0 784) = 784%nat ∧
  ∃ ps,
    cell_41 (nn_Sequential [Lin (blank_Linear 784 128); ReLU;
                            Lin (blank_Linear 128 64); ReLU;
                            Lin (blank_Linear 64 10); LogSoftmax 1])
      (repeat 0 784) = [ps] ∧
    length ps = 10%nat ∧ probabilities ps.
Proof.
  split; [apply well_formed_blank|]. split; [apply well_formed_blank|].
  split; [apply well_formed_blank|]. split; [apply repeat_length|].
  exact (proj2 (proj2 (cell_41_probabilities
    (blank_Linear 784 128) (blank_Linear 128 64) (blank_Linear 64 10)
    (repeat 0 784)
    (well_formed_blank 784 128) (well_formed_blank 128 64)
    (well_formed_blank 64 10) (repeat_length 0 784)))).
Defined.
